(** * dj-set-downloader: the generated Python API client, embedded in Rocq

    The models of [dj_set_downloader_api_client/models] are plain data
    classes with a [to_dict] / [from_dict] pair.  They are embedded
    shallowly: a JSON value is an inductive type, a Python [dict] with
    string keys is a [gmap string value] (extensional equality, as Python's
    [==] on dicts), a field of type [Union[Unset, T]] is a [field T], and a
    call that may raise returns a [result].  *)

From Stdlib Require Import ZArith String List OrdersEx Floats.SpecFloat.
From stdpp Require Import gmap strings list fin_maps sorting.

#[local] Set Warnings "-register-all".
#[local] Open Scope string_scope.
#[local] Open Scope list_scope.

(** ** JSON values as Python sees them *)

Inductive value : Type :=
| VNull
| VBool (b : bool)
| VInt (n : Z)
| VFloat (f : spec_float)
| VStr (s : string)
| VList (l : list value)
| VDict (m : gmap string value).

Abbreviation dict := (gmap string value).

(** ** Exceptions and fallible calls *)

Inductive exn : Type :=
| KeyError (key : string)
| ValueError
| TypeError
| UnexpectedStatus (status_code : Z) (content : list Byte.byte).

(** The outcome of a call: it returns, it raises, or the run lies outside
    what this model can represent ([Unmodelled]): Python then returns or
    raises, and the model does not say which. *)
Inductive result (A : Type) : Type :=
| Ok (a : A)
| Raise (e : exn)
| Unmodelled.
Arguments Ok {A} a.
Arguments Raise {A} e.
Arguments Unmodelled {A}.

#[global] Instance result_ret : MRet result := λ A a, Ok a.
#[global] Instance result_bind : MBind result := λ A B f r,
  match r with Ok a => f a | Raise e => Raise e | Unmodelled => Unmodelled end.
#[global] Instance result_fmap : FMap result := λ A B f r,
  match r with Ok a => Ok (f a) | Raise e => Raise e | Unmodelled => Unmodelled end.

Definition is_Ok {A} (r : result A) : bool :=
  match r with Ok _ => true | _ => false end.

(** ** The unset marker

    Modelled from the spec: [types.py] ([Unset], [UNSET]) is not among the
    sources.  The spec describes it as an "unset" marker distinct from null
    and from absent-in-JSON; the generated idiom [_x or []] applied to a
    popped default of [UNSET] relies on the marker being falsy.  *)

Inductive field (A : Type) : Type :=
| UNSET
| Given (a : A).
Arguments UNSET {A}.
Arguments Given {A} a.

Definition field_map {A B} (f : A → B) (x : field A) : field B :=
  match x with UNSET => UNSET | Given a => Given (f a) end.

Definition field_of_option {A} (o : option A) : field A :=
  match o with Some a => Given a | None => UNSET end.

Definition is_given {A} (x : field A) : bool :=
  match x with UNSET => false | Given _ => true end.

(** ** Python built-ins used by the generated code *)

(** [d.pop(key, UNSET)] on the local copy [d]. *)
Definition pop_default (key : string) (d : dict) : field value * dict :=
  (field_of_option (d !! key), delete key d).

(** [d.pop(key)]: raises [KeyError] when the key is missing. *)
Definition pop (key : string) (d : dict) : result (value * dict) :=
  match d !! key with
  | Some v => Ok (v, delete key d)
  | None => Raise (KeyError key)
  end.

(** [if x is not UNSET: field_dict[key] = x]. *)
Definition set_if_given (key : string) (x : field value) (field_dict : dict) : dict :=
  match x with
  | UNSET => field_dict
  | Given v => <[key := v]> field_dict
  end.

(** Truth value of a JSON value ([bool(v)]). *)
Definition truthy (v : value) : bool :=
  match v with
  | VNull => false
  | VBool b => b
  | VInt n => negb (n =? 0)%Z
  | VFloat (S754_zero _) => false
  | VFloat _ => true
  | VStr s => negb (String.eqb s "")
  | VList l => negb (Nat.eqb (length l) 0)
  | VDict m => negb (Nat.eqb (size m) 0)
  end.

(** [_x or []] where [_x] was popped with default [UNSET]. *)
Definition or_empty_list (x : field value) : value :=
  match x with
  | UNSET => VList []
  | Given v => if truthy v then v else VList []
  end.

(** The items a [for] loop sees.  A string yields its characters, a dict
    its keys, numbers, booleans and null are not iterable.  The keys come in
    the order of [map_to_list], not in insertion order; the loops of the
    models hand every item to [from_dict], where a key other than the empty
    string raises the same [ValueError] whatever its position.  Likewise a
    string yields its bytes here and its characters in Python: each of them
    is a non-empty string, on which [from_dict] raises that [ValueError]. *)
Definition py_iter (v : value) : result (list value) :=
  match v with
  | VList l => Ok l
  | VStr s => Ok ((λ c, VStr (String c EmptyString)) <$> list_ascii_of_string s)
  | VDict m => Ok ((λ kv, VStr kv.1) <$> map_to_list m)
  | _ => Raise TypeError
  end.

Definition is_ascii_char (a : Ascii.ascii) : bool := (Ascii.N_of_ascii a <? 128)%N.

(** One element of a sequence handed to [dict()].  Python turns the element
    into a sequence ([TypeError] for a number, a boolean or null), wants
    exactly two items in it ([ValueError] otherwise) and hashes the first
    one as the key ([TypeError] for a list or a mapping).  Three cases lie
    outside this model: a key that is no string (dicts here have string
    keys), an element that is a mapping of two keys (the pair depends on
    their insertion order, which a [gmap] does not keep), and a string
    element with a character outside ASCII (its length in characters is not
    its length in bytes). *)
Definition py_dict_item (item : value) : result (string * value) :=
  match item with
  | VList [k; v] =>
      match k with
      | VStr s => Ok (s, v)
      | VList _ | VDict _ => Raise TypeError
      | _ => Unmodelled
      end
  | VList _ => Raise ValueError
  | VStr s =>
      let chars := list_ascii_of_string s in
      if forallb is_ascii_char chars then
        match chars with
        | [a; b] => Ok (String a EmptyString, VStr (String b EmptyString))
        | _ => Raise ValueError
        end
      else Unmodelled
  | VDict m => if Nat.eqb (size m) 2 then Unmodelled else Raise ValueError
  | _ => Raise TypeError
  end.

(** [dict(src_dict)] at the head of every [from_dict].  The parameter is
    annotated [Mapping[str, Any]]; for a mapping this is a copy.  A list is
    read as a sequence of key/value pairs, a later pair replacing an earlier
    one with the same key, and the first element that is no pair raises; the
    empty string gives the empty dict, a non-empty string raises
    [ValueError] (its characters are no pairs), a number, a boolean or null
    raises [TypeError]. *)
Definition py_dict (v : value) : result dict :=
  match v with
  | VDict m => Ok m
  | VStr s => if String.eqb s "" then Ok ∅ else Raise ValueError
  | VList l =>
      pairs ← mapM py_dict_item l;
      Ok (foldl (λ d kv, <[kv.1 := kv.2]> d) ∅ pairs)
  | _ => Raise TypeError
  end.

(** The body of the generated loop
    [for item_data in (_xs or []): xs.append(M.from_dict(item_data))]. *)
Definition from_dict_items {A} (from_dict : dict → result A)
    (x : field value) : result (list A) :=
  items ← py_iter (or_empty_list x);
  mapM (λ item_data, d ← py_dict item_data; from_dict d) items.

(** [M.from_dict(_x)] guarded by [isinstance(_x, Unset)]. *)
Definition from_dict_nested {A} (from_dict : dict → result A)
    (x : field value) : result (field A) :=
  match x with
  | UNSET => Ok UNSET
  | Given v => Given <$> (d ← py_dict v; from_dict d)
  end.

(** ** models/progress_stage.py *)

Inductive ProgressStage : Type :=
| COMPLETE | DOWNLOADING | ERROR | IMPORTING | INITIALIZING | PROCESSING.

#[global] Instance ProgressStage_eq_dec : EqDecision ProgressStage.
Proof. solve_decision. Defined.

Definition ProgressStage_value (s : ProgressStage) : string :=
  match s with
  | COMPLETE => "complete"
  | DOWNLOADING => "downloading"
  | ERROR => "error"
  | IMPORTING => "importing"
  | INITIALIZING => "initializing"
  | PROCESSING => "processing"
  end.

Definition ProgressStage_members : list ProgressStage :=
  [COMPLETE; DOWNLOADING; ERROR; IMPORTING; INITIALIZING; PROCESSING].

(** [ProgressStage(v)]: lookup of a member by value; [ValueError] when no
    member has that value.  A value that is not a string equals no member's
    value. *)
Definition ProgressStage_call (v : value) : result ProgressStage :=
  match v with
  | VStr s =>
      match List.find (λ m, String.eqb (ProgressStage_value m) s) ProgressStage_members with
      | Some m => Ok m
      | None => Raise ValueError
      end
  | _ => Raise ValueError
  end.

(** ** models/progress_track_details.py *)

Module ProgressTrackDetails.
Record t : Type := mk {
  current_track : field value;
  processed_tracks : field value;
  total_tracks : field value;
  track_number : field value;
  additional_properties : dict;
}.

Definition to_dict (self : t) : dict :=
  let field_dict := additional_properties self in
  let field_dict := set_if_given "currentTrack" (current_track self) field_dict in
  let field_dict := set_if_given "processedTracks" (processed_tracks self) field_dict in
  let field_dict := set_if_given "totalTracks" (total_tracks self) field_dict in
  let field_dict := set_if_given "trackNumber" (track_number self) field_dict in
  field_dict.

Definition from_dict (src_dict : dict) : result t :=
  let d := src_dict in
  let '(current_track, d) := pop_default "currentTrack" d in
  let '(processed_tracks, d) := pop_default "processedTracks" d in
  let '(total_tracks, d) := pop_default "totalTracks" d in
  let '(track_number, d) := pop_default "trackNumber" d in
  Ok (mk current_track processed_tracks total_tracks track_number d).
End ProgressTrackDetails.

(** ** models/domain_track.py *)

Module DomainTrack.
Record t : Type := mk {
  artist : field value;
  end_time : field value;
  name : field value;
  start_time : field value;
  track_number : field value;
  additional_properties : dict;
}.

Definition to_dict (self : t) : dict :=
  let field_dict := additional_properties self in
  let field_dict := set_if_given "artist" (artist self) field_dict in
  let field_dict := set_if_given "end_time" (end_time self) field_dict in
  let field_dict := set_if_given "name" (name self) field_dict in
  let field_dict := set_if_given "start_time" (start_time self) field_dict in
  let field_dict := set_if_given "track_number" (track_number self) field_dict in
  field_dict.

Definition from_dict (src_dict : dict) : result t :=
  let d := src_dict in
  let '(artist, d) := pop_default "artist" d in
  let '(end_time, d) := pop_default "end_time" d in
  let '(name, d) := pop_default "name" d in
  let '(start_time, d) := pop_default "start_time" d in
  let '(track_number, d) := pop_default "track_number" d in
  Ok (mk artist end_time name start_time track_number d).
End DomainTrack.

(** ** models/domain_tracklist.py *)

Module DomainTracklist.
Record t : Type := mk {
  artist : field value;
  genre : field value;
  name : field value;
  tracks : field (list DomainTrack.t);
  year : field value;
  additional_properties : dict;
}.

Definition to_dict (self : t) : dict :=
  let tracks : field value :=
    field_map (λ ts, VList ((λ tracks_item_data, VDict (DomainTrack.to_dict tracks_item_data)) <$> ts))
              (tracks self) in
  let field_dict := additional_properties self in
  let field_dict := set_if_given "artist" (artist self) field_dict in
  let field_dict := set_if_given "genre" (genre self) field_dict in
  let field_dict := set_if_given "name" (name self) field_dict in
  let field_dict := set_if_given "tracks" tracks field_dict in
  let field_dict := set_if_given "year" (year self) field_dict in
  field_dict.

Definition from_dict (src_dict : dict) : result t :=
  let d := src_dict in
  let '(artist, d) := pop_default "artist" d in
  let '(genre, d) := pop_default "genre" d in
  let '(name, d) := pop_default "name" d in
  let '(_tracks, d) := pop_default "tracks" d in
  tracks ← from_dict_items DomainTrack.from_dict _tracks;
  let '(year, d) := pop_default "year" d in
  Ok (mk artist genre name (Given tracks) year d).
End DomainTracklist.

(** ** models/progress_event.py *)

Module ProgressEvent.
Record t : Type := mk {
  data : field value;
  error : field value;
  message : field value;
  progress : field value;
  stage : field ProgressStage;
  timestamp : field value;
  track_details : field ProgressTrackDetails.t;
  additional_properties : dict;
}.

Definition to_dict (self : t) : dict :=
  let stage : field value := field_map (λ s, VStr (ProgressStage_value s)) (stage self) in
  let track_details : field value :=
    field_map (λ td, VDict (ProgressTrackDetails.to_dict td)) (track_details self) in
  let field_dict := additional_properties self in
  let field_dict := set_if_given "data" (data self) field_dict in
  let field_dict := set_if_given "error" (error self) field_dict in
  let field_dict := set_if_given "message" (message self) field_dict in
  let field_dict := set_if_given "progress" (progress self) field_dict in
  let field_dict := set_if_given "stage" stage field_dict in
  let field_dict := set_if_given "timestamp" (timestamp self) field_dict in
  let field_dict := set_if_given "trackDetails" track_details field_dict in
  field_dict.

Definition from_dict (src_dict : dict) : result t :=
  let d := src_dict in
  let '(data, d) := pop_default "data" d in
  let '(error, d) := pop_default "error" d in
  let '(message, d) := pop_default "message" d in
  let '(progress, d) := pop_default "progress" d in
  let '(_stage, d) := pop_default "stage" d in
  stage ← match _stage with
          | UNSET => Ok UNSET
          | Given v => Given <$> ProgressStage_call v
          end;
  let '(timestamp, d) := pop_default "timestamp" d in
  let '(_track_details, d) := pop_default "trackDetails" d in
  track_details ← from_dict_nested ProgressTrackDetails.from_dict _track_details;
  Ok (mk data error message progress stage timestamp track_details d).
End ProgressEvent.

(** ** models/job_status.py *)

Module JobStatus.
Record t : Type := mk {
  end_time : field value;
  error : field value;
  events : field (list ProgressEvent.t);
  id : field value;
  message : field value;
  progress : field value;
  results : field value;
  start_time : field value;
  status : field value;
  tracklist : field DomainTracklist.t;
  additional_properties : dict;
}.

Definition to_dict (self : t) : dict :=
  let events : field value :=
    field_map (λ es, VList ((λ events_item_data, VDict (ProgressEvent.to_dict events_item_data)) <$> es))
              (events self) in
  let tracklist : field value :=
    field_map (λ tl, VDict (DomainTracklist.to_dict tl)) (tracklist self) in
  let field_dict := additional_properties self in
  let field_dict := set_if_given "endTime" (end_time self) field_dict in
  let field_dict := set_if_given "error" (error self) field_dict in
  let field_dict := set_if_given "events" events field_dict in
  let field_dict := set_if_given "id" (id self) field_dict in
  let field_dict := set_if_given "message" (message self) field_dict in
  let field_dict := set_if_given "progress" (progress self) field_dict in
  let field_dict := set_if_given "results" (results self) field_dict in
  let field_dict := set_if_given "startTime" (start_time self) field_dict in
  let field_dict := set_if_given "status" (status self) field_dict in
  let field_dict := set_if_given "tracklist" tracklist field_dict in
  field_dict.

Definition from_dict (src_dict : dict) : result t :=
  let d := src_dict in
  let '(end_time, d) := pop_default "endTime" d in
  let '(error, d) := pop_default "error" d in
  let '(_events, d) := pop_default "events" d in
  events ← from_dict_items ProgressEvent.from_dict _events;
  let '(id, d) := pop_default "id" d in
  let '(message, d) := pop_default "message" d in
  let '(progress, d) := pop_default "progress" d in
  let '(results, d) := pop_default "results" d in
  let '(start_time, d) := pop_default "startTime" d in
  let '(status, d) := pop_default "status" d in
  let '(_tracklist, d) := pop_default "tracklist" d in
  tracklist ← from_dict_nested DomainTracklist.from_dict _tracklist;
  Ok (mk end_time error (Given events) id message progress results
         start_time status tracklist d).
End JobStatus.

(** ** models/job_response.py *)

Module JobResponse.
Record t : Type := mk {
  jobs : field (list JobStatus.t);
  page : field value;
  page_size : field value;
  total_jobs : field value;
  total_pages : field value;
  additional_properties : dict;
}.

Definition to_dict (self : t) : dict :=
  let jobs : field value :=
    field_map (λ js, VList ((λ jobs_item_data, VDict (JobStatus.to_dict jobs_item_data)) <$> js))
              (jobs self) in
  let field_dict := additional_properties self in
  let field_dict := set_if_given "jobs" jobs field_dict in
  let field_dict := set_if_given "page" (page self) field_dict in
  let field_dict := set_if_given "pageSize" (page_size self) field_dict in
  let field_dict := set_if_given "totalJobs" (total_jobs self) field_dict in
  let field_dict := set_if_given "totalPages" (total_pages self) field_dict in
  field_dict.

Definition from_dict (src_dict : dict) : result t :=
  let d := src_dict in
  let '(_jobs, d) := pop_default "jobs" d in
  jobs ← from_dict_items JobStatus.from_dict _jobs;
  let '(page, d) := pop_default "page" d in
  let '(page_size, d) := pop_default "pageSize" d in
  let '(total_jobs, d) := pop_default "totalJobs" d in
  let '(total_pages, d) := pop_default "totalPages" d in
  Ok (mk (Given jobs) page page_size total_jobs total_pages d).
End JobResponse.

(** ** models/job_request.py *)

Module JobRequest.
Record t : Type := mk {
  tracklist : value;
  url : value;
  file_extension : field value;
  max_concurrent_tasks : field value;
  additional_properties : dict;
}.

Definition to_dict (self : t) : dict :=
  let field_dict := additional_properties self in
  let field_dict := <["url" := url self]> (<["tracklist" := tracklist self]> field_dict) in
  let field_dict := set_if_given "fileExtension" (file_extension self) field_dict in
  let field_dict := set_if_given "maxConcurrentTasks" (max_concurrent_tasks self) field_dict in
  field_dict.

Definition from_dict (src_dict : dict) : result t :=
  let d := src_dict in
  '(tracklist, d) ← pop "tracklist" d;
  '(url, d) ← pop "url" d;
  let '(file_extension, d) := pop_default "fileExtension" d in
  let '(max_concurrent_tasks, d) := pop_default "maxConcurrentTasks" d in
  Ok (mk tracklist url file_extension max_concurrent_tasks d).
End JobRequest.

(** ** The model classes as one family

    Every generated model offers the same interface ([from_dict],
    [to_dict], [additional_properties]); the family below lets a statement
    range over "every model class". *)

Inductive model_class : Type :=
| CJobRequest | CJobResponse | CJobStatus | CProgressEvent
| CDomainTrack | CDomainTracklist | CProgressTrackDetails.

Definition model (c : model_class) : Type :=
  match c with
  | CJobRequest => JobRequest.t
  | CJobResponse => JobResponse.t
  | CJobStatus => JobStatus.t
  | CProgressEvent => ProgressEvent.t
  | CDomainTrack => DomainTrack.t
  | CDomainTracklist => DomainTracklist.t
  | CProgressTrackDetails => ProgressTrackDetails.t
  end.

Definition from_dict (c : model_class) : dict → result (model c) :=
  match c with
  | CJobRequest => JobRequest.from_dict
  | CJobResponse => JobResponse.from_dict
  | CJobStatus => JobStatus.from_dict
  | CProgressEvent => ProgressEvent.from_dict
  | CDomainTrack => DomainTrack.from_dict
  | CDomainTracklist => DomainTracklist.from_dict
  | CProgressTrackDetails => ProgressTrackDetails.from_dict
  end.

Definition to_dict (c : model_class) : model c → dict :=
  match c with
  | CJobRequest => JobRequest.to_dict
  | CJobResponse => JobResponse.to_dict
  | CJobStatus => JobStatus.to_dict
  | CProgressEvent => ProgressEvent.to_dict
  | CDomainTrack => DomainTrack.to_dict
  | CDomainTracklist => DomainTracklist.to_dict
  | CProgressTrackDetails => ProgressTrackDetails.to_dict
  end.

Definition additional_properties (c : model_class) : model c → dict :=
  match c with
  | CJobRequest => JobRequest.additional_properties
  | CJobResponse => JobResponse.additional_properties
  | CJobStatus => JobStatus.additional_properties
  | CProgressEvent => ProgressEvent.additional_properties
  | CDomainTrack => DomainTrack.additional_properties
  | CDomainTracklist => DomainTracklist.additional_properties
  | CProgressTrackDetails => ProgressTrackDetails.additional_properties
  end.

(** The wire keys each model reads in [from_dict] and writes in [to_dict],
    in the order the code handles them. *)
Definition wire_keys (c : model_class) : list string :=
  match c with
  | CJobRequest => ["tracklist"; "url"; "fileExtension"; "maxConcurrentTasks"]
  | CJobResponse => ["jobs"; "page"; "pageSize"; "totalJobs"; "totalPages"]
  | CJobStatus =>
      ["endTime"; "error"; "events"; "id"; "message"; "progress"; "results";
       "startTime"; "status"; "tracklist"]
  | CProgressEvent =>
      ["data"; "error"; "message"; "progress"; "stage"; "timestamp"; "trackDetails"]
  | CDomainTrack => ["artist"; "end_time"; "name"; "start_time"; "track_number"]
  | CDomainTracklist => ["artist"; "genre"; "name"; "tracks"; "year"]
  | CProgressTrackDetails =>
      ["currentTrack"; "processedTracks"; "totalTracks"; "trackNumber"]
  end.

Definition items_to_value {A} (to_dict : A → dict) (xs : list A) : value :=
  VList ((λ x, VDict (to_dict x)) <$> xs).

(** The value each named field contributes to the serialized mapping: what
    [to_dict] holds in its local variable of the same name just before it
    fills [field_dict]. *)
Definition named_fields (c : model_class) : model c → list (string * field value) :=
  match c with
  | CJobRequest => λ m,
      [("tracklist", Given (JobRequest.tracklist m));
       ("url", Given (JobRequest.url m));
       ("fileExtension", JobRequest.file_extension m);
       ("maxConcurrentTasks", JobRequest.max_concurrent_tasks m)]
  | CJobResponse => λ m,
      [("jobs", field_map (items_to_value JobStatus.to_dict) (JobResponse.jobs m));
       ("page", JobResponse.page m);
       ("pageSize", JobResponse.page_size m);
       ("totalJobs", JobResponse.total_jobs m);
       ("totalPages", JobResponse.total_pages m)]
  | CJobStatus => λ m,
      [("endTime", JobStatus.end_time m);
       ("error", JobStatus.error m);
       ("events", field_map (items_to_value ProgressEvent.to_dict) (JobStatus.events m));
       ("id", JobStatus.id m);
       ("message", JobStatus.message m);
       ("progress", JobStatus.progress m);
       ("results", JobStatus.results m);
       ("startTime", JobStatus.start_time m);
       ("status", JobStatus.status m);
       ("tracklist", field_map (λ tl, VDict (DomainTracklist.to_dict tl)) (JobStatus.tracklist m))]
  | CProgressEvent => λ m,
      [("data", ProgressEvent.data m);
       ("error", ProgressEvent.error m);
       ("message", ProgressEvent.message m);
       ("progress", ProgressEvent.progress m);
       ("stage", field_map (λ s, VStr (ProgressStage_value s)) (ProgressEvent.stage m));
       ("timestamp", ProgressEvent.timestamp m);
       ("trackDetails",
        field_map (λ td, VDict (ProgressTrackDetails.to_dict td)) (ProgressEvent.track_details m))]
  | CDomainTrack => λ m,
      [("artist", DomainTrack.artist m);
       ("end_time", DomainTrack.end_time m);
       ("name", DomainTrack.name m);
       ("start_time", DomainTrack.start_time m);
       ("track_number", DomainTrack.track_number m)]
  | CDomainTracklist => λ m,
      [("artist", DomainTracklist.artist m);
       ("genre", DomainTracklist.genre m);
       ("name", DomainTracklist.name m);
       ("tracks", field_map (items_to_value DomainTrack.to_dict) (DomainTracklist.tracks m));
       ("year", DomainTracklist.year m)]
  | CProgressTrackDetails => λ m,
      [("currentTrack", ProgressTrackDetails.current_track m);
       ("processedTracks", ProgressTrackDetails.processed_tracks m);
       ("totalTracks", ProgressTrackDetails.total_tracks m);
       ("trackNumber", ProgressTrackDetails.track_number m)]
  end.

(** Filling [field_dict] one key after the other. *)
Definition write_fields (field_dict : dict) (fs : list (string * field value)) : dict :=
  foldl (λ acc kf, set_if_given kf.1 kf.2 acc) field_dict fs.

(** The local dict after the keys [ks] were popped from it. *)
Definition remove_keys (ks : list string) (d : dict) : dict :=
  foldl (λ acc k, delete k acc) d ks.

(** The six stage names of the spec's glossary. *)
Definition stage_names : list string :=
  ["initializing"; "downloading"; "importing"; "processing"; "complete"; "error"].

(** The "trackDetails" entry, if any, converts to a mapping: the nested
    [ProgressTrackDetails.from_dict] then returns. *)
Definition track_details_convertible (d : dict) : bool :=
  match d !! "trackDetails" with
  | None => true
  | Some v => is_Ok (py_dict v)
  end.

(** * Well-typed wire mappings

    The types are those of the class docstrings.  With [complete = false] a
    documented key may be absent; with [complete = true] the required keys of
    JobRequest and every key holding a list of models ("jobs", "events",
    "tracks") must be present, at every level of nesting. *)

Definition is_str (v : value) : bool :=
  match v with VStr _ => true | _ => false end.
Definition is_int (v : value) : bool :=
  match v with VInt _ => true | _ => false end.
Definition is_float (v : value) : bool :=
  match v with VFloat _ | VInt _ => true | _ => false end.
Definition is_stage (v : value) : bool := is_Ok (ProgressStage_call v).
Definition is_list_of (p : value → bool) (v : value) : bool :=
  match v with VList l => forallb p l | _ => false end.
Definition is_mapping (p : dict → bool) (v : value) : bool :=
  match v with VDict m => p m | _ => false end.

Definition key_typed (required : bool) (k : string) (p : value → bool) (d : dict) : bool :=
  match d !! k with
  | Some v => p v
  | None => negb required
  end.

Definition only_keys (ks : list string) (d : dict) : bool :=
  bool_decide (dom d ⊆ list_to_set ks).

Definition typed_ProgressTrackDetails (d : dict) : bool :=
  only_keys (wire_keys CProgressTrackDetails) d
  && key_typed false "currentTrack" is_str d
  && key_typed false "processedTracks" is_int d
  && key_typed false "totalTracks" is_int d
  && key_typed false "trackNumber" is_int d.

Definition typed_DomainTrack (d : dict) : bool :=
  only_keys (wire_keys CDomainTrack) d
  && key_typed false "artist" is_str d
  && key_typed false "end_time" is_str d
  && key_typed false "name" is_str d
  && key_typed false "start_time" is_str d
  && key_typed false "track_number" is_int d.

Definition typed_DomainTracklist (complete : bool) (d : dict) : bool :=
  only_keys (wire_keys CDomainTracklist) d
  && key_typed false "artist" is_str d
  && key_typed false "genre" is_str d
  && key_typed false "name" is_str d
  && key_typed complete "tracks" (is_list_of (is_mapping typed_DomainTrack)) d
  && key_typed false "year" is_int d.

Definition typed_ProgressEvent (d : dict) : bool :=
  only_keys (wire_keys CProgressEvent) d
  && key_typed false "data" (is_list_of is_int) d
  && key_typed false "error" is_str d
  && key_typed false "message" is_str d
  && key_typed false "progress" is_float d
  && key_typed false "stage" is_stage d
  && key_typed false "timestamp" is_str d
  && key_typed false "trackDetails" (is_mapping typed_ProgressTrackDetails) d.

Definition typed_JobStatus (complete : bool) (d : dict) : bool :=
  only_keys (wire_keys CJobStatus) d
  && key_typed false "endTime" is_str d
  && key_typed false "error" is_str d
  && key_typed complete "events" (is_list_of (is_mapping typed_ProgressEvent)) d
  && key_typed false "id" is_str d
  && key_typed false "message" is_str d
  && key_typed false "progress" is_float d
  && key_typed false "results" (is_list_of is_str) d
  && key_typed false "startTime" is_str d
  && key_typed false "status" is_str d
  && key_typed false "tracklist" (is_mapping (typed_DomainTracklist complete)) d.

Definition typed_JobResponse (complete : bool) (d : dict) : bool :=
  only_keys (wire_keys CJobResponse) d
  && key_typed complete "jobs" (is_list_of (is_mapping (typed_JobStatus complete))) d
  && key_typed false "page" is_int d
  && key_typed false "pageSize" is_int d
  && key_typed false "totalJobs" is_int d
  && key_typed false "totalPages" is_int d.

Definition typed_JobRequest (complete : bool) (d : dict) : bool :=
  only_keys (wire_keys CJobRequest) d
  && key_typed complete "tracklist" is_str d
  && key_typed complete "url" is_str d
  && key_typed false "fileExtension" is_str d
  && key_typed false "maxConcurrentTasks" is_int d.

Definition well_typed (complete : bool) (c : model_class) : dict → bool :=
  match c with
  | CJobRequest => typed_JobRequest complete
  | CJobResponse => typed_JobResponse complete
  | CJobStatus => typed_JobStatus complete
  | CProgressEvent => typed_ProgressEvent
  | CDomainTrack => typed_DomainTrack
  | CDomainTracklist => typed_DomainTracklist complete
  | CProgressTrackDetails => typed_ProgressTrackDetails
  end.

(** The round trip of one mapping through one class. *)
Definition round_trips (c : model_class) (d : dict) : Prop :=
  ∃ m, from_dict c d = Ok m ∧ to_dict c m = d.

(** [from_dict] read every documented key faithfully: each named field
    serializes to exactly what the mapping holds under its key (unset when
    the key is absent), and the other keys went to [additional_properties]. *)
Definition faithful (c : model_class) (d : dict) : Prop :=
  ∃ m, from_dict c d = Ok m ∧
       additional_properties c m = remove_keys (wire_keys c) d ∧
       named_fields c m = (λ k, (k, field_of_option (d !! k))) <$> wire_keys c.

(** * api/jobs/post_api_process.py *)

(** [client.py] is not among the sources; [_parse_response] reads one
    attribute of the client, named in the docstrings of this module. *)
Record Client : Type := mkClient {
  raise_on_unexpected_status : bool;
}.

(** The parts of an [httpx.Response] that [_parse_response] reads.  [json]
    is the outcome of [response.json()], which raises when the body is not
    JSON. *)
Record Response : Type := mkResponse {
  status_code : Z;
  content : list Byte.byte;
  json : result value;
}.

Section PostApiProcess.
(** [models/server_message_response.py] and
    [models/server_error_response.py] are not among the sources: the two
    classes and their [from_dict] are parameters. *)
Context {ServerMessageResponse ServerErrorResponse : Type}.
Variable ServerMessageResponse_from_dict : value → result ServerMessageResponse.
Variable ServerErrorResponse_from_dict : value → result ServerErrorResponse.

(** [Union[ServerErrorResponse, ServerMessageResponse]]. *)
Inductive parsed : Type :=
| ParsedMessage (m : ServerMessageResponse)
| ParsedError (e : ServerErrorResponse).

Definition _parse_response (client : Client) (response : Response)
    : result (option parsed) :=
  if (status_code response =? 202)%Z then
    body ← json response;
    response_202 ← ServerMessageResponse_from_dict body;
    Ok (Some (ParsedMessage response_202))
  else if (status_code response =? 400)%Z then
    body ← json response;
    response_400 ← ServerErrorResponse_from_dict body;
    Ok (Some (ParsedError response_400))
  else if raise_on_unexpected_status client then
    Raise (UnexpectedStatus (status_code response) (content response))
  else Ok None.
End PostApiProcess.

(** * The job service behind the client

    The client sources hold only the wire declarations ([JobStatus],
    [JobResponse], [ProgressStage]); the lifecycle manager and the paginator
    run on the server.  Their behaviour is modelled from the spec, §3, §4.1,
    §4.2, §4.3, §4.4 and §8. *)

(** Modelled from the spec: the failures of the synchronous operations (§7);
    the service code is not among the sources. *)
Inductive service_error : Type :=
| InvalidRequest
| NotFound
| AlreadyTerminal.

(** Modelled from the spec: a progress event as the worker emits it (§3),
    reduced to its stage and message; the service code is not among the
    sources. *)
Record JobEvent : Type := mkJobEvent {
  event_stage : ProgressStage;
  event_message : string;
}.

(** Modelled from the spec: one entry of a job's event log.  The log is
    "append-only, the full replayable history of the job" (§3, §4.3); an
    event that the validation of §4.2 rejects is "retained in history but
    flagged" (§8). *)
Record LoggedEvent : Type := mkLoggedEvent {
  logged_event : JobEvent;
  flagged : bool;
}.

(** Modelled from the spec: a Job (§3) with its identifier, its place in the
    creation order, its status and its append-only event log; the registry
    code is not among the sources. *)
Record Job : Type := mkJob {
  job_id : string;
  job_created : nat;
  job_status : ProgressStage;
  job_events : list LoggedEvent;
}.

(** Modelled from the spec: "complete and error are terminal" (§4.2). *)
Definition is_terminal (s : ProgressStage) : bool :=
  match s with COMPLETE | ERROR => true | _ => false end.

(** Modelled from the spec: the rows of the state table of §4.2, as the
    pairs (from, to) it lists; "any non-terminal" stands for the four
    non-terminal states. *)
Definition table_row (from to : ProgressStage) : bool :=
  match from, to with
  | INITIALIZING, DOWNLOADING => true
  | DOWNLOADING, IMPORTING => true
  | IMPORTING, PROCESSING => true
  | PROCESSING, PROCESSING => true
  | PROCESSING, COMPLETE => true
  | _, ERROR => negb (is_terminal from)
  | _, _ => false
  end.

(** Modelled from the spec: [JobRegistry.Create] (§4.1) stores a new Job in
    state initializing, with empty events "or only an initial event" (§8). *)
Definition Create (id : string) (created : nat) (initial_event : bool) : Job :=
  mkJob id created INITIALIZING
    (if initial_event
     then [mkLoggedEvent (mkJobEvent INITIALIZING "created") false] else []).

(** Modelled from the spec: an event that reports progress within the
    current state and implies no transition: its stage is the state of the
    job, and the job is not finished. *)
Definition progress_update (status : ProgressStage) (e : JobEvent) : bool :=
  bool_decide (event_stage e = status) && negb (is_terminal status).

(** Modelled from the spec: [AppendEvent] (§4.1) with the validation of
    §4.2.  Every event is appended to the log (§3, §4.3).  When the table
    has a row from the current state to the event's stage, the event is
    applied: the status becomes its stage.  An event of the current stage of
    an unfinished job leaves the status as it is.  Any other event is a
    protocol violation: it is "retained in history but flagged" (§8) and the
    job state is unaffected (§7).  The sentence of §3 that no event is
    appended once the job is terminal is not followed: §8 keeps the
    [downloading] event that comes after [complete]. *)
Definition AppendEvent (j : Job) (e : JobEvent) : Job :=
  if table_row (job_status j) (event_stage e) then
    mkJob (job_id j) (job_created j) (event_stage e)
      (job_events j ++ [mkLoggedEvent e false])
  else if progress_update (job_status j) e then
    mkJob (job_id j) (job_created j) (job_status j)
      (job_events j ++ [mkLoggedEvent e false])
  else
    mkJob (job_id j) (job_created j) (job_status j)
      (job_events j ++ [mkLoggedEvent e true]).

(** Modelled from the spec: [Cancel] (§4.2): a terminal job answers
    [AlreadyTerminal] and its event log is left unchanged (§8); otherwise a
    terminal event with stage error and a cancellation message is
    appended. *)
Definition Cancel (j : Job) : Job * option service_error :=
  if is_terminal (job_status j) then (j, Some AlreadyTerminal)
  else (AppendEvent j (mkJobEvent ERROR "cancelled"), None).

(** Modelled from the spec: what can happen to a job after its creation: a
    progress event from the worker, a worker fault (recorded as a terminal
    error event, §7), a cancellation request. *)
Inductive job_input : Type :=
| WorkerEvent (e : JobEvent)
| WorkerFault (message : string)
| CancelRequest.

Definition job_step (j : Job) (i : job_input) : Job :=
  match i with
  | WorkerEvent e => AppendEvent j e
  | WorkerFault message => AppendEvent j (mkJobEvent ERROR message)
  | CancelRequest => (Cancel j).1
  end.

Definition job_run (j : Job) (inputs : list job_input) : Job :=
  foldl job_step j inputs.

(** Modelled from the spec: the status values implied by an event log
    (§3, §8): the initial state followed by the stage of every
    terminal-or-running event, in log order. *)
Definition implied_statuses (events : list LoggedEvent) : list ProgressStage :=
  INITIALIZING ::
    (event_stage ∘ logged_event <$>
       filter (λ l, event_stage (logged_event l) ≠ INITIALIZING) events).


(** A sequence of states in which every step is a row of the table. *)
Fixpoint valid_path (l : list ProgressStage) : bool :=
  match l with
  | s :: ((s' :: _) as l') => table_row s s' && valid_path l'
  | _ => true
  end.

(** Modelled from the spec: the entries of a log that are not flagged as
    protocol violations (§8). *)
Definition unflagged (events : list LoggedEvent) : list LoggedEvent :=
  filter (λ l, flagged l = false) events.




(** * The paginator *)

(** Modelled from the spec: the order on identifiers used to break ties
    (§4.4); identifiers are strings, compared lexicographically. *)
Definition id_le (a b : string) : Prop :=
  a = b ∨ String_as_OT.compare a b = Lt.

#[global] Instance id_le_dec : RelDecision id_le.
Proof. intros a b. unfold id_le. apply or_dec; solve_decision. Defined.

(** Modelled from the spec: "deterministic ordering (by creation order, ties
    broken by identifier)" (§4.4). *)
Definition job_le (a b : Job) : Prop :=
  job_created a < job_created b ∨
  (job_created a = job_created b ∧ id_le (job_id a) (job_id b)).

#[global] Instance job_le_dec : RelDecision job_le.
Proof. intros a b. unfold job_le. solve_decision. Defined.

Section Paginator.
(** Modelled from the spec: the "configured maximum" of the page size. *)
Variable max_page_size : nat.

(** The number of pages needed for [total] jobs. *)
Definition page_count (total size : nat) : nat := (total + size - 1) / size.

(** Modelled from the spec: [Page(jobs, page, pageSize)] (§4.4): jobs in
    creation order with ties broken by identifier, 1-based pages, the page
    size clamped to the configured maximum, a page beyond the last one
    empty, and [InvalidRequest] for [page < 1] or [pageSize < 1].  The
    paginator code is not among the sources. *)
Definition Page (jobs : list Job) (page pageSize : Z)
    : service_error + (list Job * nat * nat) :=
  if ((page <? 1) || (pageSize <? 1))%Z then inl InvalidRequest
  else
    let size := Z.to_nat pageSize `min` max_page_size in
    let ordered := merge_sort job_le jobs in
    let totalJobs := length jobs in
    let totalPages := page_count totalJobs size in
    inr (take size (drop ((Z.to_nat page - 1) * size) ordered), totalJobs, totalPages).
End Paginator.

(** * The rest of the model interface

    Every model class carries the same five accessors of its
    [additional_properties] ([additional_keys], [__getitem__],
    [__setitem__], [__delitem__], [__contains__]); they are written once,
    over the family of classes. *)

(** The object after [self.additional_properties] was changed in place:
    the named fields stay, the dict is the new one. *)
Definition with_additional_properties (c : model_class) : model c → dict → model c :=
  match c with
  | CJobRequest => λ m a,
      JobRequest.mk (JobRequest.tracklist m) (JobRequest.url m)
        (JobRequest.file_extension m) (JobRequest.max_concurrent_tasks m) a
  | CJobResponse => λ m a,
      JobResponse.mk (JobResponse.jobs m) (JobResponse.page m) (JobResponse.page_size m)
        (JobResponse.total_jobs m) (JobResponse.total_pages m) a
  | CJobStatus => λ m a,
      JobStatus.mk (JobStatus.end_time m) (JobStatus.error m) (JobStatus.events m)
        (JobStatus.id m) (JobStatus.message m) (JobStatus.progress m)
        (JobStatus.results m) (JobStatus.start_time m) (JobStatus.status m)
        (JobStatus.tracklist m) a
  | CProgressEvent => λ m a,
      ProgressEvent.mk (ProgressEvent.data m) (ProgressEvent.error m)
        (ProgressEvent.message m) (ProgressEvent.progress m) (ProgressEvent.stage m)
        (ProgressEvent.timestamp m) (ProgressEvent.track_details m) a
  | CDomainTrack => λ m a,
      DomainTrack.mk (DomainTrack.artist m) (DomainTrack.end_time m) (DomainTrack.name m)
        (DomainTrack.start_time m) (DomainTrack.track_number m) a
  | CDomainTracklist => λ m a,
      DomainTracklist.mk (DomainTracklist.artist m) (DomainTracklist.genre m)
        (DomainTracklist.name m) (DomainTracklist.tracks m) (DomainTracklist.year m) a
  | CProgressTrackDetails => λ m a,
      ProgressTrackDetails.mk (ProgressTrackDetails.current_track m)
        (ProgressTrackDetails.processed_tracks m) (ProgressTrackDetails.total_tracks m)
        (ProgressTrackDetails.track_number m) a
  end.

(** [list(self.additional_properties.keys())].  The keys come in the order
    of [map_to_list], not in insertion order: only membership is meant. *)
Definition additional_keys (c : model_class) (self : model c) : list string :=
  (map_to_list (additional_properties c self)).*1.

(** [self.additional_properties[key]]: [KeyError] on a missing key. *)
Definition __getitem__ (c : model_class) (self : model c) (key : string) : result value :=
  match additional_properties c self !! key with
  | Some v => Ok v
  | None => Raise (KeyError key)
  end.

(** [self.additional_properties[key] = value]. *)
Definition __setitem__ (c : model_class) (self : model c) (key : string) (v : value)
    : model c :=
  with_additional_properties c self (<[key := v]> (additional_properties c self)).

(** [del self.additional_properties[key]]: [KeyError] on a missing key. *)
Definition __delitem__ (c : model_class) (self : model c) (key : string)
    : result (model c) :=
  match additional_properties c self !! key with
  | Some _ => Ok (with_additional_properties c self (delete key (additional_properties c self)))
  | None => Raise (KeyError key)
  end.

(** [key in self.additional_properties]. *)
Definition __contains__ (c : model_class) (self : model c) (key : string) : bool :=
  match additional_properties c self !! key with
  | Some _ => true
  | None => false
  end.

(** [ProgressStage.__str__]: [str(self.value)]. *)
Definition ProgressStage_str (self : ProgressStage) : string := ProgressStage_value self.

(** The value [to_dict] writes under a wire key, looked up by key. *)
Fixpoint assoc_field (key : string) (fs : list (string * field value)) : field value :=
  match fs with
  | [] => UNSET
  | (k, x) :: fs => if String.eqb k key then x else assoc_field key fs
  end.

Definition field_to_option {A} (x : field A) : option A :=
  match x with Given a => Some a | UNSET => None end.

(** The wire keys of the named fields that are set. *)
Definition given_keys (fs : list (string * field value)) : list string :=
  (filter (λ kf, is_given kf.2 = true) fs).*1.

(** ** Objects that survive serialization

    No wire key hides in [additional_properties], every list-of-models
    field holds a list, and the nested models are of the same kind. *)

Definition no_wire_keys (c : model_class) (a : dict) : bool :=
  forallb (λ k, match a !! k with None => true | Some _ => false end) (wire_keys c).

Definition canonical_items {A} (p : A → bool) (x : field (list A)) : bool :=
  match x with Given xs => forallb p xs | UNSET => false end.

Definition canonical_nested {A} (p : A → bool) (x : field A) : bool :=
  match x with Given a => p a | UNSET => true end.

Definition canonical_ProgressTrackDetails (m : ProgressTrackDetails.t) : bool :=
  no_wire_keys CProgressTrackDetails (ProgressTrackDetails.additional_properties m).

Definition canonical_DomainTrack (m : DomainTrack.t) : bool :=
  no_wire_keys CDomainTrack (DomainTrack.additional_properties m).

Definition canonical_DomainTracklist (m : DomainTracklist.t) : bool :=
  no_wire_keys CDomainTracklist (DomainTracklist.additional_properties m)
  && canonical_items canonical_DomainTrack (DomainTracklist.tracks m).

Definition canonical_ProgressEvent (m : ProgressEvent.t) : bool :=
  no_wire_keys CProgressEvent (ProgressEvent.additional_properties m)
  && canonical_nested canonical_ProgressTrackDetails (ProgressEvent.track_details m).

Definition canonical_JobStatus (m : JobStatus.t) : bool :=
  no_wire_keys CJobStatus (JobStatus.additional_properties m)
  && canonical_items canonical_ProgressEvent (JobStatus.events m)
  && canonical_nested canonical_DomainTracklist (JobStatus.tracklist m).

Definition canonical_JobResponse (m : JobResponse.t) : bool :=
  no_wire_keys CJobResponse (JobResponse.additional_properties m)
  && canonical_items canonical_JobStatus (JobResponse.jobs m).

Definition canonical_JobRequest (m : JobRequest.t) : bool :=
  no_wire_keys CJobRequest (JobRequest.additional_properties m).

Definition canonical (c : model_class) : model c → bool :=
  match c with
  | CJobRequest => canonical_JobRequest
  | CJobResponse => canonical_JobResponse
  | CJobStatus => canonical_JobStatus
  | CProgressEvent => canonical_ProgressEvent
  | CDomainTrack => canonical_DomainTrack
  | CDomainTracklist => canonical_DomainTracklist
  | CProgressTrackDetails => canonical_ProgressTrackDetails
  end.

(** The "stage" entry, if any, names a member of [ProgressStage]. *)
Definition stage_acceptable (d : dict) : bool :=
  match d !! "stage" with
  | None => true
  | Some v => is_stage v
  end.

(** ** Mappings with the structure [from_dict] relies on

    Nothing is asked of plain values or of unknown keys: the stage, if any,
    names a member; a nested model, if any, is a mapping; a key holding a
    list of models is present and holds a list of mappings; a JobRequest has
    its two required keys; and so on at every level of nesting. *)

Definition any_value (v : value) : bool := true.
Definition any_mapping (d : dict) : bool := true.

Definition structured_ProgressEvent (d : dict) : bool :=
  key_typed false "stage" is_stage d
  && key_typed false "trackDetails" (is_mapping any_mapping) d.

Definition structured_DomainTracklist (d : dict) : bool :=
  key_typed true "tracks" (is_list_of (is_mapping any_mapping)) d.

Definition structured_JobStatus (d : dict) : bool :=
  key_typed true "events" (is_list_of (is_mapping structured_ProgressEvent)) d
  && key_typed false "tracklist" (is_mapping structured_DomainTracklist) d.

Definition structured_JobResponse (d : dict) : bool :=
  key_typed true "jobs" (is_list_of (is_mapping structured_JobStatus)) d.

Definition structured_JobRequest (d : dict) : bool :=
  key_typed true "tracklist" any_value d && key_typed true "url" any_value d.

Definition structured (c : model_class) : dict → bool :=
  match c with
  | CJobRequest => structured_JobRequest
  | CJobResponse => structured_JobResponse
  | CJobStatus => structured_JobStatus
  | CProgressEvent => structured_ProgressEvent
  | CDomainTrack => any_mapping
  | CDomainTracklist => structured_DomainTracklist
  | CProgressTrackDetails => any_mapping
  end.

(** ** Mappings on which [from_dict] returns

    As [structured], except that a key holding a list of models may be
    absent (the loop of [from_dict] then runs over [[]]).  Again nothing is
    asked of plain values or of unknown keys. *)

Definition accepted_DomainTracklist (d : dict) : bool :=
  key_typed false "tracks" (is_list_of (is_mapping any_mapping)) d.

Definition accepted_JobStatus (d : dict) : bool :=
  key_typed false "events" (is_list_of (is_mapping structured_ProgressEvent)) d
  && key_typed false "tracklist" (is_mapping accepted_DomainTracklist) d.

Definition accepted_JobResponse (d : dict) : bool :=
  key_typed false "jobs" (is_list_of (is_mapping accepted_JobStatus)) d.

Definition accepted (c : model_class) : dict → bool :=
  match c with
  | CJobRequest => structured_JobRequest
  | CJobResponse => accepted_JobResponse
  | CJobStatus => accepted_JobStatus
  | CProgressEvent => structured_ProgressEvent
  | CDomainTrack => any_mapping
  | CDomainTracklist => accepted_DomainTracklist
  | CProgressTrackDetails => any_mapping
  end.

(** * The calls of api/jobs/post_api_process.py *)

Definition _get_kwargs (body : JobRequest.t) : dict :=
  let headers : dict := ∅ in
  let _kwargs : dict := <["url" := VStr "/api/process"]> (<["method" := VStr "post"]> ∅) in
  let _kwargs := <["json" := VDict (JobRequest.to_dict body)]> _kwargs in
  let headers := <["Content-Type" := VStr "application/json"]> headers in
  let _kwargs := <["headers" := VDict headers]> _kwargs in
  _kwargs.

Section PostApiProcessCalls.
(** The response models, [http.HTTPStatus], the headers of an
    [httpx.Response] and the transport ([client.get_httpx_client().request])
    are not among the sources: they are parameters.  [HTTPStatus_call] is
    the enum lookup [HTTPStatus(code)], which raises for a code that is no
    member. *)
Context {ServerMessageResponse ServerErrorResponse HTTPStatus Headers : Type}.
Variable ServerMessageResponse_from_dict : value → result ServerMessageResponse.
Variable ServerErrorResponse_from_dict : value → result ServerErrorResponse.
Variable HTTPStatus_call : Z → result HTTPStatus.
Variable headers : Response → Headers.
Variable request : Client → dict → result Response.

(** [types.Response]: the detailed response handed to the caller. *)
Record DetailedResponse : Type := mkDetailedResponse {
  detailed_status_code : HTTPStatus;
  detailed_content : list Byte.byte;
  detailed_headers : Headers;
  parsed_body : option (@parsed ServerMessageResponse ServerErrorResponse);
}.

(** The keyword arguments are evaluated from left to right:
    [HTTPStatus(response.status_code)] first, [_parse_response] last. *)
Definition _build_response (client : Client) (response : Response)
    : result DetailedResponse :=
  status ← HTTPStatus_call (status_code response);
  let content := content response in
  let headers := headers response in
  parsed ← _parse_response ServerMessageResponse_from_dict ServerErrorResponse_from_dict
             client response;
  Ok (mkDetailedResponse status content headers parsed).

Definition sync_detailed (client : Client) (body : JobRequest.t)
    : result DetailedResponse :=
  let kwargs := _get_kwargs body in
  response ← request client kwargs;
  _build_response client response.

Definition sync (client : Client) (body : JobRequest.t)
    : result (option (@parsed ServerMessageResponse ServerErrorResponse)) :=
  parsed_body <$> sync_detailed client body.
End PostApiProcessCalls.

(** * Sample data

    Concrete mappings, objects and jobs on which the statements below are
    exercised. *)

Definition sample_status_wire : dict :=
  <["status" := VStr "processing"]> (<["x-trace" := VInt 7]> ∅).

Definition colliding_event : ProgressEvent.t :=
  ProgressEvent.mk UNSET UNSET (Given (VStr "halfway")) UNSET (Given PROCESSING) UNSET UNSET
    (<["stage" := VStr "bogus"]> (<["message" := VNull]> ∅)).

Definition request_with_stray_key : JobRequest.t :=
  JobRequest.mk (VStr "1. A - X 00:00") (VStr "https://example.com/set.mp3") UNSET UNSET
    (<["fileExtension" := VStr "mp3"]> ∅).

Definition sample_request_wire : dict :=
  <["url" := VStr "https://example.com/set.mp3"]>
    (<["tracklist" := VStr "1. A - X 00:00"]> (<["maxConcurrentTasks" := VInt 4]> ∅)).

Definition sample_track : DomainTrack.t :=
  DomainTrack.mk (Given (VStr "A")) (Given (VStr "03:30")) (Given (VStr "X"))
    (Given (VStr "00:00")) (Given (VInt 1)) ∅.

Definition sample_event_wire : dict :=
  <["stage" := VStr "importing"]> (<["progress" := VInt 1]> ∅).

Definition failing_download_wire : dict :=
  <["error" := VStr "disk full"]> (<["stage" := VStr "downloading"]> ∅).

Definition request_without_url : dict := {[ "tracklist" := VStr "1. A - X 00:00" ]}.

Definition sample_jobs_wire : dict :=
  <["jobs" := VList [VDict (<["events" := VList [VDict sample_event_wire]]>
                             (<["status" := VStr "importing"]> ∅))]]>
    (<["page" := VInt 1]> ∅).

(** Two stand-ins for the response models, each keeping one field of the
    body, to run [_parse_response] on concrete responses. *)
Definition message_of (body : value) : result (field value) :=
  d ← py_dict body; Ok (field_of_option (d !! "message")).
Definition error_of (body : value) : result (field value) :=
  d ← py_dict body; Ok (field_of_option (d !! "error")).

Definition accepted_response : Response :=
  mkResponse 202 [] (Ok (VDict {[ "message" := VStr "started" ]})).
Definition teapot_response : Response := mkResponse 418 [] (Raise ValueError).

Definition happy_path : list job_input :=
  [WorkerEvent (mkJobEvent DOWNLOADING "fetching");
   WorkerEvent (mkJobEvent DOWNLOADING "halfway");
   WorkerEvent (mkJobEvent IMPORTING "importing");
   WorkerEvent (mkJobEvent PROCESSING "track 1");
   WorkerEvent (mkJobEvent PROCESSING "track 2");
   WorkerEvent (mkJobEvent COMPLETE "done")].


Definition stray_key_only : dict := {[ "x-trace" := VInt 7 ]}.

Definition track_details_pairs_wire : dict :=
  {[ "trackDetails" := VList [VList [VStr "currentTrack"; VStr "x"]] ]}.

Definition five_jobs : list Job :=
  [mkJob "e" 3 INITIALIZING []; mkJob "b" 1 DOWNLOADING []; mkJob "a" 1 COMPLETE [];
   mkJob "d" 2 ERROR []; mkJob "c" 0 PROCESSING []].

Definition ill_typed_request_wire : dict :=
  <["url" := VInt 42]> (<["tracklist" := VList [VNull]]> (<["x-extra" := VBool true]> ∅)).

Definition mixed_events_wire : dict :=
  <["events" := VList [VDict sample_event_wire; VDict failing_download_wire]]> ∅.

Definition sample_response : JobResponse.t :=
  JobResponse.mk
    (Given [JobStatus.mk UNSET UNSET (Given []) (Given (VStr "job-1")) UNSET UNSET UNSET
              UNSET (Given (VStr "importing"))
              (Given (DomainTracklist.mk (Given (VStr "DJ")) UNSET UNSET
                        (Given [sample_track]) UNSET ∅))
              {[ "x-trace" := VInt 7 ]}])
    (Given (VInt 1)) UNSET UNSET UNSET ∅.

Definition sample_request : JobRequest.t :=
  JobRequest.mk (VStr "1. A - X 00:00") (VStr "https://example.com/set.mp3")
    UNSET (Given (VInt 4)) ∅.

(** Stand-ins for the witness of the submit call: an enum lookup that knows
    a few status codes, and a transport that answers with a fixed
    response. *)
Definition sample_HTTPStatus (code : Z) : result Z :=
  if bool_decide (code ∈ [200; 202; 400; 404; 418; 500]%Z) then Ok code
  else Raise ValueError.

Definition odd_status_response : Response := mkResponse 799 [] (Raise ValueError).

Definition transport_answering (r : Response) (client : Client) (kwargs : dict)
    : result Response := Ok r.

(** * Properties of the serialization skeleton *)

Lemma to_dict_write_fields c (m : model c) :
  to_dict c m = write_fields (additional_properties c m) (named_fields c m).
Proof. destruct c; reflexivity. Qed.

Lemma named_fields_keys c (m : model c) : (named_fields c m).*1 = wire_keys c.
Proof. destruct c; reflexivity. Qed.

Lemma wire_keys_NoDup c : NoDup (wire_keys c).
Proof. destruct c; apply (bool_decide_unpack _); by vm_compute. Qed.

Lemma lookup_set_if_given_ne k x (a : dict) i :
  i ≠ k → set_if_given k x a !! i = a !! i.
Proof. intros Hne. destruct x; simpl; [done|]. by rewrite lookup_insert_ne. Qed.

Lemma lookup_set_if_given_eq k x (a : dict) :
  set_if_given k x a !! k = match x with Given v => Some v | UNSET => a !! k end.
Proof. destruct x; simpl; [done|]. by rewrite lookup_insert_eq. Qed.

Lemma lookup_write_fields_notin fs (a : dict) i :
  i ∉ fs.*1 → write_fields a fs !! i = a !! i.
Proof.
  revert a. induction fs as [|[k x] fs IH]; intros a Hi; [done|].
  simpl in Hi. apply not_elem_of_cons in Hi as [Hne Hi].
  unfold write_fields in *. simpl. rewrite IH by done.
  by apply lookup_set_if_given_ne.
Qed.

Lemma lookup_write_fields_in fs (a : dict) k x :
  NoDup fs.*1 → (k, x) ∈ fs →
  write_fields a fs !! k = match x with Given v => Some v | UNSET => a !! k end.
Proof.
  revert a. induction fs as [|[k0 x0] fs IH]; intros a Hnd Hin.
  { by apply elem_of_nil in Hin. }
  simpl in Hnd. apply NoDup_cons in Hnd as [Hk0 Hnd].
  apply elem_of_cons in Hin as [Heq|Hin].
  - injection Heq as -> ->. unfold write_fields. simpl.
    fold (write_fields (set_if_given k0 x0 a) fs).
    rewrite lookup_write_fields_notin by done.
    apply lookup_set_if_given_eq.
  - unfold write_fields. simpl. fold (write_fields (set_if_given k0 x0 a) fs).
    rewrite IH by done.
    assert (k ≠ k0) as Hne.
    { intros ->. apply Hk0. apply list_elem_of_fmap. by exists (k0, x). }
    destruct x; [|done..]. by apply lookup_set_if_given_ne.
Qed.

Lemma lookup_remove_keys ks (d : dict) i :
  remove_keys ks d !! i = if decide (i ∈ ks) then None else d !! i.
Proof.
  revert d. induction ks as [|k ks IH]; intros d.
  { simpl. destruct (decide (i ∈ [])) as [Hin|]; [by apply elem_of_nil in Hin|done..]. }
  unfold remove_keys. simpl. fold (remove_keys ks (delete k d)). rewrite IH.
  destruct (decide (i ∈ ks)) as [Hin|Hin], (decide (i ∈ k :: ks)) as [Hin'|Hin'];
    try done.
  - exfalso. auto using list_elem_of_further.
  - apply elem_of_cons in Hin' as [->|?]; [apply lookup_delete_eq|done..].
  - apply lookup_delete_ne. intros ->. apply Hin', list_elem_of_here.
Qed.

(** Writing back every popped key with the value it had restores the
    mapping. *)
Lemma write_fields_restore ks (d : dict) :
  NoDup ks →
  write_fields (remove_keys ks d) ((λ k, (k, field_of_option (d !! k))) <$> ks) = d.
Proof.
  intros Hnd. apply map_eq. intros i.
  assert (((λ k, (k, field_of_option (d !! k))) <$> ks).*1 = ks) as Hkeys.
  { rewrite <- list_fmap_compose. apply list_fmap_id. }
  destruct (decide (i ∈ ks)) as [Hin|Hin].
  - rewrite (lookup_write_fields_in _ _ i (field_of_option (d !! i))).
    + rewrite lookup_remove_keys, decide_True by done. by destruct (d !! i).
    + by rewrite Hkeys.
    + apply list_elem_of_fmap. by exists i.
  - rewrite lookup_write_fields_notin by by rewrite Hkeys.
    by rewrite lookup_remove_keys, decide_False.
Qed.

(** Inverting a successful sequence of calls: each bound call returned. *)
Ltac inv_ok :=
  repeat match goal with
  | H : Ok _ = Ok _ |- _ => injection H as H; subst
  | H : Raise _ = Ok _ |- _ => discriminate H
  | H : Unmodelled = Ok _ |- _ => discriminate H
  | H : mbind _ ?r = Ok _ |- _ =>
      let E := fresh "Hcall" in destruct r eqn:E; [simpl in H|discriminate H..]
  | H : fmap _ ?r = Ok _ |- _ =>
      let E := fresh "Hcall" in destruct r eqn:E; [simpl in H|discriminate H..]
  | H : (let '(_, _) := ?p in _) = Ok _ |- _ => destruct p; simpl in H
  end.

(** What [from_dict] leaves in [additional_properties]: the input without
    the keys it popped. *)
Lemma from_dict_additional_properties c d (m : model c) :
  from_dict c d = Ok m → additional_properties c m = remove_keys (wire_keys c) d.
Proof.
  destruct c; simpl; intros H.
  - unfold JobRequest.from_dict, pop in H.
    destruct (d !! "tracklist") eqn:E1; [simpl in H|discriminate H..].
    rewrite lookup_delete_ne in H by done.
    destruct (d !! "url") eqn:E2; [simpl in H|discriminate H..].
    by inv_ok.
  - unfold JobResponse.from_dict in H; simpl in H. by inv_ok.
  - unfold JobStatus.from_dict in H; simpl in H. by inv_ok.
  - unfold ProgressEvent.from_dict in H; simpl in H. by inv_ok.
  - unfold DomainTrack.from_dict in H; simpl in H. by inv_ok.
  - unfold DomainTracklist.from_dict in H; simpl in H. by inv_ok.
  - unfold ProgressTrackDetails.from_dict in H; simpl in H. by inv_ok.
Qed.

(** * C10: a named field overrides a colliding additional property *)

(** C10.  For every model object whose [additional_properties] holds a key
    that is also the wire key of a named field that is set, [to_dict] emits
    the named field's value under that key: named fields are written after
    [additional_properties]. *)
Theorem C10_named_field_wins (c : model_class) (m : model c) (k : string) (v v' : value) :
  additional_properties c m !! k = Some v' →
  (k, Given v) ∈ named_fields c m →
  to_dict c m !! k = Some v.
Proof.
  intros _ Hin. rewrite to_dict_write_fields.
  rewrite (lookup_write_fields_in _ _ k (Given v)); [done| |done..].
  rewrite named_fields_keys. apply wire_keys_NoDup.
Qed.

Lemma C10_named_field_wins_witness :
  to_dict CProgressEvent colliding_event !! "stage" = Some (VStr "processing").
Proof.
  apply (C10_named_field_wins CProgressEvent colliding_event "stage" _ (VStr "bogus")).
  - reflexivity.
  - simpl. do 4 apply list_elem_of_further. apply list_elem_of_here.
Defined.

(** * C6: the keys of a serialized JobRequest *)

(** C6, counterexample.  A request whose [file_extension] field is unset but
    whose [additional_properties] holds the key "fileExtension" (set through
    [__setitem__]) still emits "fileExtension": emission of an optional key
    is not equivalent to the field being set. *)
Lemma C6_counterexample :
  JobRequest.file_extension request_with_stray_key = UNSET ∧
  JobRequest.to_dict request_with_stray_key !! "fileExtension" = Some (VStr "mp3").
Proof. split; reflexivity. Qed.

(** C6, amended.  [to_dict] always emits "tracklist" and "url" with the
    field values; an optional field that is set is emitted under its key
    with its value, and one that is unset leaves the key as
    [additional_properties] has it, so the key is emitted if and only if the
    field is set whenever [additional_properties] does not hold that key, in
    particular for every request returned by [from_dict].  [from_dict]
    raises [KeyError] on every mapping missing "tracklist" or "url" and
    returns on every mapping that has both. *)
Theorem C6_JobRequest_keys :
  (∀ jr : JobRequest.t,
     JobRequest.to_dict jr !! "tracklist" = Some (JobRequest.tracklist jr) ∧
     JobRequest.to_dict jr !! "url" = Some (JobRequest.url jr) ∧
     JobRequest.to_dict jr !! "fileExtension" =
       match JobRequest.file_extension jr with
       | Given v => Some v
       | UNSET => JobRequest.additional_properties jr !! "fileExtension"
       end ∧
     JobRequest.to_dict jr !! "maxConcurrentTasks" =
       match JobRequest.max_concurrent_tasks jr with
       | Given v => Some v
       | UNSET => JobRequest.additional_properties jr !! "maxConcurrentTasks"
       end) ∧
  (∀ jr : JobRequest.t,
     JobRequest.additional_properties jr !! "fileExtension" = None →
     JobRequest.additional_properties jr !! "maxConcurrentTasks" = None →
     (is_Some (JobRequest.to_dict jr !! "fileExtension") ↔
        is_given (JobRequest.file_extension jr) = true) ∧
     (is_Some (JobRequest.to_dict jr !! "maxConcurrentTasks") ↔
        is_given (JobRequest.max_concurrent_tasks jr) = true)) ∧
  (∀ d jr, JobRequest.from_dict d = Ok jr →
     JobRequest.additional_properties jr !! "fileExtension" = None ∧
     JobRequest.additional_properties jr !! "maxConcurrentTasks" = None) ∧
  (∀ d : dict, d !! "tracklist" = None ∨ d !! "url" = None →
     ∃ k, JobRequest.from_dict d = Raise (KeyError k) ∧ (k = "tracklist" ∨ k = "url")) ∧
  (∀ d : dict, is_Some (d !! "tracklist") → is_Some (d !! "url") →
     ∃ jr, JobRequest.from_dict d = Ok jr).
Proof.
  assert (∀ jr k x, (k, x) ∈ named_fields CJobRequest jr →
            JobRequest.to_dict jr !! k =
              match x with
              | Given v => Some v
              | UNSET => JobRequest.additional_properties jr !! k
              end) as Hfield.
  { intros jr k x Hin. change (JobRequest.to_dict jr) with (to_dict CJobRequest jr).
    rewrite to_dict_write_fields. apply lookup_write_fields_in; [|done..].
    rewrite named_fields_keys. apply wire_keys_NoDup. }
  assert (∀ jr,
     JobRequest.to_dict jr !! "tracklist" = Some (JobRequest.tracklist jr) ∧
     JobRequest.to_dict jr !! "url" = Some (JobRequest.url jr) ∧
     JobRequest.to_dict jr !! "fileExtension" =
       match JobRequest.file_extension jr with
       | Given v => Some v
       | UNSET => JobRequest.additional_properties jr !! "fileExtension"
       end ∧
     JobRequest.to_dict jr !! "maxConcurrentTasks" =
       match JobRequest.max_concurrent_tasks jr with
       | Given v => Some v
       | UNSET => JobRequest.additional_properties jr !! "maxConcurrentTasks"
       end) as Hemit.
  { intros jr. repeat split.
    - apply (Hfield jr "tracklist" (Given _)). simpl. apply list_elem_of_here.
    - apply (Hfield jr "url" (Given _)). simpl.
      apply list_elem_of_further, list_elem_of_here.
    - apply (Hfield jr "fileExtension"). simpl.
      do 2 apply list_elem_of_further. apply list_elem_of_here.
    - apply (Hfield jr "maxConcurrentTasks"). simpl.
      do 3 apply list_elem_of_further. apply list_elem_of_here. }
  split; [exact Hemit|]. split; [|split; [|split]].
  - intros jr Ha1 Ha2. destruct (Hemit jr) as (_ & _ & -> & ->).
    rewrite Ha1, Ha2.
    destruct (JobRequest.file_extension jr), (JobRequest.max_concurrent_tasks jr);
      simpl; (split; split; intros H; try done; try (by eexists);
              by destruct H as [? H]).
  - intros d jr Hfrom.
    pose proof (from_dict_additional_properties CJobRequest d jr Hfrom) as Hadd.
    change (additional_properties CJobRequest jr)
      with (JobRequest.additional_properties jr) in Hadd.
    rewrite Hadd, !lookup_remove_keys. split.
    + destruct (decide ("fileExtension" ∈ wire_keys CJobRequest)) as [|Hn]; [done|].
      exfalso. apply Hn. simpl. do 2 apply list_elem_of_further. apply list_elem_of_here.
    + destruct (decide ("maxConcurrentTasks" ∈ wire_keys CJobRequest)) as [|Hn]; [done|].
      exfalso. apply Hn. simpl. do 3 apply list_elem_of_further. apply list_elem_of_here.
  - intros d Hmiss. unfold JobRequest.from_dict, pop.
    destruct (d !! "tracklist") eqn:E1; simpl.
    + destruct Hmiss as [?|E2]; [done|].
      rewrite lookup_delete_ne, E2 by done. simpl. eauto.
    + eauto.
  - intros d [t Ht] [u Hu]. unfold JobRequest.from_dict, pop.
    rewrite Ht. simpl. rewrite lookup_delete_ne, Hu by done. simpl. eauto.
Qed.

Lemma C6_JobRequest_keys_witness :
  (∃ jr, JobRequest.from_dict sample_request_wire = Ok jr) ∧
  (∃ k, JobRequest.from_dict (delete "url" sample_request_wire) = Raise (KeyError k) ∧
        (k = "tracklist" ∨ k = "url")).
Proof.
  destruct C6_JobRequest_keys as (_ & _ & _ & Hmiss & Hboth). split.
  - apply Hboth; by eexists.
  - apply Hmiss. right. reflexivity.
Defined.

(** * C7: the keys of a serialized DomainTrack *)

(** C7, counterexample.  A track with all five fields set serializes without
    any of the keys "startTime", "endTime" and "trackNumber". *)
Lemma C7_counterexample :
  DomainTrack.to_dict sample_track !! "startTime" = None ∧
  DomainTrack.to_dict sample_track !! "endTime" = None ∧
  DomainTrack.to_dict sample_track !! "trackNumber" = None.
Proof. repeat split; reflexivity. Qed.

(** C7, amended.  For every DomainTrack with all five fields set, [to_dict]
    carries those five fields under the names artist, name, start_time,
    end_time and track_number; its keys are those five together with the keys
    of [additional_properties], hence exactly those five when
    [additional_properties] is empty. *)
Theorem C7_DomainTrack_keys (t : DomainTrack.t) (a e n s tn : value) :
  DomainTrack.artist t = Given a →
  DomainTrack.end_time t = Given e →
  DomainTrack.name t = Given n →
  DomainTrack.start_time t = Given s →
  DomainTrack.track_number t = Given tn →
  DomainTrack.to_dict t !! "artist" = Some a ∧
  DomainTrack.to_dict t !! "name" = Some n ∧
  DomainTrack.to_dict t !! "start_time" = Some s ∧
  DomainTrack.to_dict t !! "end_time" = Some e ∧
  DomainTrack.to_dict t !! "track_number" = Some tn ∧
  dom (DomainTrack.to_dict t) =
    list_to_set (wire_keys CDomainTrack) ∪ dom (DomainTrack.additional_properties t) ∧
  (DomainTrack.additional_properties t = ∅ →
   dom (DomainTrack.to_dict t) = list_to_set (wire_keys CDomainTrack)).
Proof.
  intros Ha He Hn Hs Htn.
  assert (dom (DomainTrack.to_dict t) =
    list_to_set (wire_keys CDomainTrack) ∪ dom (DomainTrack.additional_properties t)) as Hdom.
  { unfold DomainTrack.to_dict. rewrite Ha, He, Hn, Hs, Htn. simpl.
    rewrite !dom_insert_L. apply set_eq. intros x. set_unfold. tauto. }
  unfold DomainTrack.to_dict in *. rewrite Ha, He, Hn, Hs, Htn in *. simpl in *.
  repeat split;
    try (repeat (rewrite lookup_insert_ne by done); by rewrite lookup_insert_eq).
  - done.
  - intros Hempty. rewrite Hdom, Hempty, dom_empty_L. set_solver.
Qed.

Lemma C7_DomainTrack_keys_witness :
  DomainTrack.to_dict sample_track !! "start_time" = Some (VStr "00:00") ∧
  dom (DomainTrack.to_dict sample_track) = list_to_set (wire_keys CDomainTrack).
Proof.
  destruct (C7_DomainTrack_keys sample_track (VStr "A") (VStr "03:30") (VStr "X")
              (VStr "00:00") (VInt 1) eq_refl eq_refl eq_refl eq_refl eq_refl)
    as (_ & _ & Hs & _ & _ & _ & Hdom).
  split; [exact Hs|]. apply Hdom. reflexivity.
Defined.

(** * ProgressEvent.from_dict, key by key *)

(** The pops read the input mapping itself: the keys are pairwise distinct,
    so an earlier pop never hides a later key. *)
Lemma ProgressEvent_from_dict_lookup (d : dict) :
  ProgressEvent.from_dict d =
    (stage ← match d !! "stage" with
             | None => Ok UNSET
             | Some v => Given <$> ProgressStage_call v
             end;
     track_details ← from_dict_nested ProgressTrackDetails.from_dict
                       (field_of_option (d !! "trackDetails"));
     Ok (ProgressEvent.mk
           (field_of_option (d !! "data")) (field_of_option (d !! "error"))
           (field_of_option (d !! "message")) (field_of_option (d !! "progress"))
           stage (field_of_option (d !! "timestamp")) track_details
           (remove_keys (wire_keys CProgressEvent) d))).
Proof.
  unfold ProgressEvent.from_dict, pop_default. simpl.
  repeat (rewrite lookup_delete_ne by done).
  by destruct (d !! "stage").
Qed.

Lemma ProgressStage_call_value (st : ProgressStage) :
  ProgressStage_call (VStr (ProgressStage_value st)) = Ok st.
Proof. by destruct st. Qed.

Lemma ProgressStage_call_Ok (v : value) (st : ProgressStage) :
  ProgressStage_call v = Ok st → v = VStr (ProgressStage_value st).
Proof.
  destruct v; try done. unfold ProgressStage_call.
  match goal with
  | |- context [List.find ?f ?l] => destruct (List.find f l) as [m|] eqn:E; [|done..]
  end.
  intros [= ->]. apply List.find_some in E as [_ E].
  apply String.eqb_eq in E. by subst.
Qed.

Lemma ProgressStage_call_Raise (v : value) (e : exn) :
  ProgressStage_call v = Raise e → e = ValueError.
Proof.
  destruct v; try by intros [= <-]. unfold ProgressStage_call.
  match goal with
  | |- context [List.find ?f ?l] => destruct (List.find f l); [done|]
  end.
  by intros [= <-].
Qed.

Lemma ProgressStage_call_modelled (v : value) :
  ProgressStage_call v ≠ Unmodelled.
Proof.
  destruct v; try done. unfold ProgressStage_call.
  match goal with
  | |- context [List.find ?f ?l] => by destruct (List.find f l)
  end.
Qed.

Lemma stage_names_values (s : string) :
  s ∈ stage_names ↔ ∃ st, s = ProgressStage_value st.
Proof.
  split.
  - unfold stage_names. rewrite !elem_of_cons, elem_of_nil.
    intros [->|[->|[->|[->|[->|[->|[]]]]]]];
      [by exists INITIALIZING|by exists DOWNLOADING|by exists IMPORTING
      |by exists PROCESSING|by exists COMPLETE|by exists ERROR].
  - intros [st ->]. unfold stage_names. rewrite !elem_of_cons.
    destruct st; simpl; tauto.
Qed.

(** * C4: the stage of a progress event *)

(** C4.  [ProgressEvent.from_dict] accepts the value under "stage" if and
    only if it is one of the six strings "initializing", "downloading",
    "importing", "processing", "complete", "error", and then stores the
    member with that value; for every other value it raises ([ValueError]);
    without a "stage" key the field stays unset. *)
Theorem C4_stage_accepted_iff_member (d : dict) :
  (∀ v, d !! "stage" = Some v → v ∈ VStr <$> stage_names →
     ∃ st, v = VStr (ProgressStage_value st) ∧
           (∀ ev, ProgressEvent.from_dict d = Ok ev → ProgressEvent.stage ev = Given st) ∧
           (track_details_convertible d = true →
            ∃ ev, ProgressEvent.from_dict d = Ok ev ∧ ProgressEvent.stage ev = Given st)) ∧
  (∀ v, d !! "stage" = Some v → v ∉ VStr <$> stage_names →
     ProgressEvent.from_dict d = Raise ValueError) ∧
  (d !! "stage" = None →
     (∀ ev, ProgressEvent.from_dict d = Ok ev → ProgressEvent.stage ev = UNSET) ∧
     (track_details_convertible d = true →
      ∃ ev, ProgressEvent.from_dict d = Ok ev ∧ ProgressEvent.stage ev = UNSET)).
Proof.
  assert (track_details_convertible d = true →
    ∃ td, from_dict_nested ProgressTrackDetails.from_dict
            (field_of_option (d !! "trackDetails")) = Ok td) as Htd.
  { unfold track_details_convertible.
    destruct (d !! "trackDetails") as [v|]; simpl; [|by eexists].
    destruct (py_dict v); [|done..]. intros _. by eexists. }
  rewrite ProgressEvent_from_dict_lookup. split; [|split].
  - intros v Hv Hin. apply list_elem_of_fmap in Hin as (s & -> & Hs).
    apply stage_names_values in Hs as [st ->]. exists st. split; [done|].
    rewrite Hv, ProgressStage_call_value. simpl. split.
    + intros ev H. by inv_ok.
    + intros H. destruct (Htd H) as [td ->]. simpl. by eexists.
  - intros v Hv Hnot. rewrite Hv.
    destruct (ProgressStage_call v) as [st|e|] eqn:E; simpl.
    + exfalso. apply Hnot. apply ProgressStage_call_Ok in E as ->.
      apply list_elem_of_fmap. eexists. split; [done|].
      apply stage_names_values. by eexists.
    + by apply ProgressStage_call_Raise in E as ->.
    + by apply ProgressStage_call_modelled in E.
  - intros ->. simpl. split.
    + intros ev H. by inv_ok.
    + intros H. destruct (Htd H) as [td ->]. simpl. by eexists.
Qed.

Lemma C4_stage_accepted_iff_member_witness :
  (∃ ev, ProgressEvent.from_dict sample_event_wire = Ok ev ∧
         ProgressEvent.stage ev = Given IMPORTING) ∧
  ProgressEvent.from_dict (<["stage" := VStr "paused"]> sample_event_wire) = Raise ValueError ∧
  (∃ ev, ProgressEvent.from_dict (delete "stage" sample_event_wire) = Ok ev ∧
         ProgressEvent.stage ev = UNSET).
Proof.
  split; [|split].
  - destruct (C4_stage_accepted_iff_member sample_event_wire) as (Hacc & _ & _).
    destruct (Hacc (VStr "importing") eq_refl) as (st & Hst & _ & Hok).
    { apply list_elem_of_fmap_2. apply (bool_decide_unpack _). by vm_compute. }
    injection Hst as Hst. destruct st; try discriminate Hst. by apply Hok.
  - destruct (C4_stage_accepted_iff_member (<["stage" := VStr "paused"]> sample_event_wire))
      as (_ & Hrej & _).
    apply (Hrej (VStr "paused") eq_refl).
    intros (s & [= <-] & Hs)%list_elem_of_fmap. revert Hs.
    apply (bool_decide_unpack _). by vm_compute.
  - destruct (C4_stage_accepted_iff_member (delete "stage" sample_event_wire))
      as (_ & _ & Hnone).
    by apply Hnone.
Defined.

(** * C5: the error field and the stage of a progress event *)

(** C5, counterexample.  [from_dict] returns an event whose error field is
    present while its stage is DOWNLOADING. *)
Lemma C5_counterexample :
  ∃ ev, ProgressEvent.from_dict failing_download_wire = Ok ev ∧
        ProgressEvent.error ev = Given (VStr "disk full") ∧
        ProgressEvent.stage ev = Given DOWNLOADING ∧
        ProgressEvent.stage ev ≠ Given ERROR.
Proof. eexists. split; [reflexivity|]. by repeat split. Qed.

(** C5, amended.  [ProgressEvent.from_dict] reads "error" and "stage"
    independently and checks no relation between them: the error field of
    the event it returns is present exactly when the mapping has the "error"
    key, and adding an "error" entry to an accepted mapping gives an event
    with that error and the same stage, whatever that stage is. *)
Theorem C5_error_independent_of_stage (d : dict) (ev : ProgressEvent.t) :
  ProgressEvent.from_dict d = Ok ev →
  ProgressEvent.error ev = field_of_option (d !! "error") ∧
  ∀ v, ∃ ev', ProgressEvent.from_dict (<["error" := v]> d) = Ok ev' ∧
              ProgressEvent.error ev' = Given v ∧
              ProgressEvent.stage ev' = ProgressEvent.stage ev.
Proof.
  rewrite ProgressEvent_from_dict_lookup. intros H. split.
  - by inv_ok.
  - intros v. rewrite ProgressEvent_from_dict_lookup.
    rewrite lookup_insert_eq. repeat (rewrite lookup_insert_ne by done).
    destruct (match d !! "stage" with
              | Some v0 => Given <$> ProgressStage_call v0
              | None => Ok UNSET
              end) as [st| |]; [simpl in *|done..].
    destruct (from_dict_nested ProgressTrackDetails.from_dict
                (field_of_option (d !! "trackDetails"))) as [td| |]; [simpl in *|done..].
    injection H as <-. by eexists.
Qed.

Lemma C5_error_independent_of_stage_witness :
  ∃ ev', ProgressEvent.from_dict (<["error" := VStr "oops"]> sample_event_wire) = Ok ev' ∧
         ProgressEvent.error ev' = Given (VStr "oops") ∧
         ProgressEvent.stage ev' = Given IMPORTING.
Proof.
  destruct (C5_error_independent_of_stage sample_event_wire
    (ProgressEvent.mk UNSET UNSET UNSET (Given (VInt 1)) (Given IMPORTING) UNSET UNSET ∅)
    eq_refl) as [_ H].
  exact (H (VStr "oops")).
Defined.

(** * from_dict, key by key, for the other classes *)

Lemma ProgressTrackDetails_from_dict_lookup (d : dict) :
  ProgressTrackDetails.from_dict d =
    Ok (ProgressTrackDetails.mk
          (field_of_option (d !! "currentTrack")) (field_of_option (d !! "processedTracks"))
          (field_of_option (d !! "totalTracks")) (field_of_option (d !! "trackNumber"))
          (remove_keys (wire_keys CProgressTrackDetails) d)).
Proof.
  unfold ProgressTrackDetails.from_dict, pop_default. simpl.
  by repeat (rewrite lookup_delete_ne by done).
Qed.

Lemma DomainTrack_from_dict_lookup (d : dict) :
  DomainTrack.from_dict d =
    Ok (DomainTrack.mk
          (field_of_option (d !! "artist")) (field_of_option (d !! "end_time"))
          (field_of_option (d !! "name")) (field_of_option (d !! "start_time"))
          (field_of_option (d !! "track_number"))
          (remove_keys (wire_keys CDomainTrack) d)).
Proof.
  unfold DomainTrack.from_dict, pop_default. simpl.
  by repeat (rewrite lookup_delete_ne by done).
Qed.

Lemma DomainTracklist_from_dict_lookup (d : dict) :
  DomainTracklist.from_dict d =
    (tracks ← from_dict_items DomainTrack.from_dict (field_of_option (d !! "tracks"));
     Ok (DomainTracklist.mk
           (field_of_option (d !! "artist")) (field_of_option (d !! "genre"))
           (field_of_option (d !! "name")) (Given tracks)
           (field_of_option (d !! "year"))
           (remove_keys (wire_keys CDomainTracklist) d))).
Proof.
  unfold DomainTracklist.from_dict, pop_default. simpl.
  by repeat (rewrite lookup_delete_ne by done).
Qed.

Lemma JobStatus_from_dict_lookup (d : dict) :
  JobStatus.from_dict d =
    (events ← from_dict_items ProgressEvent.from_dict (field_of_option (d !! "events"));
     tracklist ← from_dict_nested DomainTracklist.from_dict
                   (field_of_option (d !! "tracklist"));
     Ok (JobStatus.mk
           (field_of_option (d !! "endTime")) (field_of_option (d !! "error"))
           (Given events) (field_of_option (d !! "id"))
           (field_of_option (d !! "message")) (field_of_option (d !! "progress"))
           (field_of_option (d !! "results")) (field_of_option (d !! "startTime"))
           (field_of_option (d !! "status")) tracklist
           (remove_keys (wire_keys CJobStatus) d))).
Proof.
  unfold JobStatus.from_dict, pop_default. simpl.
  by repeat (rewrite lookup_delete_ne by done).
Qed.

Lemma JobResponse_from_dict_lookup (d : dict) :
  JobResponse.from_dict d =
    (jobs ← from_dict_items JobStatus.from_dict (field_of_option (d !! "jobs"));
     Ok (JobResponse.mk (Given jobs)
           (field_of_option (d !! "page")) (field_of_option (d !! "pageSize"))
           (field_of_option (d !! "totalJobs")) (field_of_option (d !! "totalPages"))
           (remove_keys (wire_keys CJobResponse) d))).
Proof.
  unfold JobResponse.from_dict, pop_default. simpl.
  by repeat (rewrite lookup_delete_ne by done).
Qed.

Lemma JobRequest_from_dict_lookup (d : dict) :
  JobRequest.from_dict d =
    match d !! "tracklist", d !! "url" with
    | Some tracklist, Some url =>
        Ok (JobRequest.mk tracklist url
              (field_of_option (d !! "fileExtension"))
              (field_of_option (d !! "maxConcurrentTasks"))
              (remove_keys (wire_keys CJobRequest) d))
    | None, _ => Raise (KeyError "tracklist")
    | Some _, None => Raise (KeyError "url")
    end.
Proof.
  unfold JobRequest.from_dict, pop, pop_default.
  destruct (d !! "tracklist"); simpl; [|done..].
  rewrite lookup_delete_ne by done.
  destruct (d !! "url"); simpl; [|done..].
  by repeat (rewrite lookup_delete_ne by done).
Qed.

(** * The mappings on which from_dict returns *)

Section NestedModelsReturn.
Context {A : Type} (from : dict → result A) (P : dict → bool).
Hypothesis from_returns : ∀ d, P d = true → ∃ m, from d = Ok m.

Lemma mapM_returns (l : list value) :
  forallb (is_mapping P) l = true →
  ∃ xs, mapM (λ item_data, d ← py_dict item_data; from d) l = Ok xs.
Proof.
  induction l as [|v l IH]; simpl; intros H.
  { by exists []. }
  apply andb_prop in H as [Hv Hl].
  destruct v as [| | | | | |d]; try done. simpl in Hv.
  destruct (from_returns d Hv) as (m & Hm), (IH Hl) as (xs & Hxs).
  exists (m :: xs). simpl. rewrite Hm. simpl. by rewrite Hxs.
Qed.

Lemma from_dict_items_returns (o : option value) :
  match o with Some v => is_list_of (is_mapping P) v | None => true end = true →
  ∃ xs, from_dict_items from (field_of_option o) = Ok xs.
Proof.
  destruct o as [v|]; [|by exists []].
  destruct v as [| | | | |l|]; try done. simpl. intros H.
  destruct (mapM_returns l H) as (xs & Hxs).
  exists xs. unfold from_dict_items.
  destruct l; simpl in *; [by inv_ok|by rewrite Hxs].
Qed.

Lemma from_dict_nested_returns (o : option value) :
  match o with Some v => is_mapping P v | None => true end = true →
  ∃ x, from_dict_nested from (field_of_option o) = Ok x.
Proof.
  destruct o as [v|]; simpl; [|by exists UNSET].
  destruct v as [| | | | | |d]; try done. simpl. intros H.
  destruct (from_returns d H) as (m & ->). by exists (Given m).
Qed.
End NestedModelsReturn.

Lemma accepted_returns_ProgressEvent (d : dict) :
  structured_ProgressEvent d = true → ∃ m, ProgressEvent.from_dict d = Ok m.
Proof.
  intros H. apply andb_prop in H as [Hstage Htd].
  rewrite ProgressEvent_from_dict_lookup.
  assert (∃ st, match d !! "stage" with
                | Some v => Given <$> ProgressStage_call v
                | None => Ok UNSET
                end = Ok st) as (st & ->).
  { revert Hstage. unfold key_typed, is_stage.
    destruct (d !! "stage") as [v|]; [|by exists UNSET].
    destruct (ProgressStage_call v) as [st| |]; [|done..]. by exists (Given st). }
  destruct (from_dict_nested_returns ProgressTrackDetails.from_dict any_mapping)
    with (o := d !! "trackDetails") as (td & ->).
  { intros d' _. rewrite ProgressTrackDetails_from_dict_lookup. by eexists. }
  { exact Htd. }
  by eexists.
Qed.

Lemma accepted_returns_DomainTracklist (d : dict) :
  accepted_DomainTracklist d = true → ∃ m, DomainTracklist.from_dict d = Ok m.
Proof.
  intros H. rewrite DomainTracklist_from_dict_lookup.
  destruct (from_dict_items_returns DomainTrack.from_dict any_mapping)
    with (o := d !! "tracks") as (xs & ->).
  { intros d' _. rewrite DomainTrack_from_dict_lookup. by eexists. }
  { exact H. }
  by eexists.
Qed.

Lemma accepted_returns_JobStatus (d : dict) :
  accepted_JobStatus d = true → ∃ m, JobStatus.from_dict d = Ok m.
Proof.
  intros H. apply andb_prop in H as [Hes Htl]. rewrite JobStatus_from_dict_lookup.
  destruct (from_dict_items_returns ProgressEvent.from_dict structured_ProgressEvent)
    with (o := d !! "events") as (xs & ->).
  { apply accepted_returns_ProgressEvent. }
  { exact Hes. }
  destruct (from_dict_nested_returns DomainTracklist.from_dict accepted_DomainTracklist)
    with (o := d !! "tracklist") as (tl & ->).
  { apply accepted_returns_DomainTracklist. }
  { exact Htl. }
  by eexists.
Qed.

Lemma accepted_returns_JobResponse (d : dict) :
  accepted_JobResponse d = true → ∃ m, JobResponse.from_dict d = Ok m.
Proof.
  intros H. rewrite JobResponse_from_dict_lookup.
  destruct (from_dict_items_returns JobStatus.from_dict accepted_JobStatus)
    with (o := d !! "jobs") as (xs & ->).
  { apply accepted_returns_JobStatus. }
  { exact H. }
  by eexists.
Qed.

Lemma accepted_returns c (d : dict) : accepted c d = true → ∃ m, from_dict c d = Ok m.
Proof.
  destruct c; simpl; intros H.
  - apply andb_prop in H as [Ht Hu]. unfold key_typed in *.
    rewrite JobRequest_from_dict_lookup.
    destruct (d !! "tracklist"); [|done]. destruct (d !! "url"); [|done]. by eexists.
  - by apply accepted_returns_JobResponse.
  - by apply accepted_returns_JobStatus.
  - by apply accepted_returns_ProgressEvent.
  - rewrite DomainTrack_from_dict_lookup. by eexists.
  - by apply accepted_returns_DomainTracklist.
  - rewrite ProgressTrackDetails_from_dict_lookup. by eexists.
Qed.

(** * C2: unknown wire fields survive the round trip *)

(** C2, counterexample.  The mapping [{"x-trace": 7}] has a key that is no
    documented wire key of JobRequest; [JobRequest.from_dict] stores it
    nowhere: it raises [KeyError] on the missing "tracklist" key. *)
Lemma C2_counterexample :
  ("x-trace" ∉ wire_keys CJobRequest) ∧
  stray_key_only !! "x-trace" = Some (VInt 7) ∧
  from_dict CJobRequest stray_key_only = Raise (KeyError "tracklist").
Proof.
  split; [|by split]. apply (bool_decide_unpack _). by vm_compute.
Qed.

(** C2, amended.  For every model class, [from_dict] returns an object on
    every input mapping [d] in which the documented keys have the structure
    the class reads (a JobRequest has "tracklist" and "url"; the stage, if
    any, names a member; a nested model, if any, is a mapping; a list of
    models, if any, is a list of such mappings), whatever other keys [d]
    has; and whenever [from_dict] returns an object [m], every key of [d]
    that is not a documented wire key of the class is stored with its value
    unchanged in [additional_properties], and [to_dict] emits the same
    key/value pair. *)
Theorem C2_unknown_keys_survive (c : model_class) (d : dict) :
  (accepted c d = true → ∃ m, from_dict c d = Ok m) ∧
  (∀ m, from_dict c d = Ok m →
     ∀ k v, k ∉ wire_keys c → d !! k = Some v →
       additional_properties c m !! k = Some v ∧ to_dict c m !! k = Some v).
Proof.
  split; [apply accepted_returns|].
  intros m Hfrom k v Hk Hd.
  assert (additional_properties c m !! k = Some v) as Hadd.
  { rewrite (from_dict_additional_properties _ _ _ Hfrom), lookup_remove_keys.
    by rewrite decide_False. }
  split; [done|].
  rewrite to_dict_write_fields, lookup_write_fields_notin; [done|].
  by rewrite named_fields_keys.
Qed.

Lemma C2_unknown_keys_survive_witness :
  ∃ m, from_dict CJobStatus sample_status_wire = Ok m ∧
       additional_properties CJobStatus m !! "x-trace" = Some (VInt 7) ∧
       to_dict CJobStatus m !! "x-trace" = Some (VInt 7).
Proof.
  destruct (C2_unknown_keys_survive CJobStatus sample_status_wire) as [Hret Hkeep].
  destruct Hret as [m Hm]; [by vm_compute|].
  exists m. split; [exact Hm|].
  apply (Hkeep m Hm).
  - apply (bool_decide_unpack _). by vm_compute.
  - reflexivity.
Defined.

(** * Round trips *)

Lemma faithful_round_trips c d : faithful c d → round_trips c d.
Proof.
  intros (m & Hfrom & Hadd & Hnamed). exists m. split; [done|].
  rewrite to_dict_write_fields, Hadd, Hnamed.
  apply write_fields_restore, wire_keys_NoDup.
Qed.

Section NestedModels.
Context {A : Type} (from : dict → result A) (to : A → dict) (P : dict → bool).
Hypothesis from_to : ∀ d, P d = true → ∃ m, from d = Ok m ∧ to m = d.

Lemma mapM_round_trip (l : list value) :
  forallb (is_mapping P) l = true →
  ∃ xs, mapM (λ item_data, d ← py_dict item_data; from d) l = Ok xs ∧
        (λ x, VDict (to x)) <$> xs = l.
Proof.
  induction l as [|v l IH]; simpl; intros H.
  { by exists []. }
  apply andb_prop in H as [Hv Hl].
  destruct v as [| | | | | |d]; try done. simpl in Hv.
  destruct (from_to d Hv) as (m & Hm & Hto), (IH Hl) as (xs & Hxs & Hmap).
  exists (m :: xs). split.
  - simpl. rewrite Hm. simpl. by rewrite Hxs.
  - by rewrite fmap_cons, Hto, Hmap.
Qed.

Lemma from_dict_items_round_trip (v : value) :
  is_list_of (is_mapping P) v = true →
  ∃ xs, from_dict_items from (Given v) = Ok xs ∧ items_to_value to xs = v.
Proof.
  destruct v as [| | | | |l|]; try done. simpl. intros H.
  destruct (mapM_round_trip l H) as (xs & Hxs & Hmap).
  exists xs. unfold from_dict_items, items_to_value. rewrite Hmap. split; [|done..].
  destruct l; simpl in *; [by inv_ok|by rewrite Hxs].
Qed.

Lemma from_dict_nested_round_trip (o : option value) :
  match o with Some v => is_mapping P v | None => true end = true →
  ∃ x, from_dict_nested from (field_of_option o) = Ok x ∧
       field_map (λ m, VDict (to m)) x = field_of_option o.
Proof.
  destruct o as [v|]; simpl; [|by exists UNSET].
  destruct v as [| | | | | |d]; try done. simpl. intros H.
  destruct (from_to d H) as (m & -> & Hto). exists (Given m). simpl. by rewrite Hto.
Qed.
End NestedModels.

Ltac split_typed H :=
  repeat (apply andb_prop in H as [H ?]).

Lemma faithful_ProgressTrackDetails d : faithful CProgressTrackDetails d.
Proof.
  eexists. split; [apply ProgressTrackDetails_from_dict_lookup|]. by split.
Qed.

Lemma faithful_DomainTrack d : faithful CDomainTrack d.
Proof.
  eexists. split; [apply DomainTrack_from_dict_lookup|]. by split.
Qed.

Lemma faithful_ProgressEvent d :
  typed_ProgressEvent d = true → faithful CProgressEvent d.
Proof.
  intros H. split_typed H. unfold faithful. simpl.
  rewrite ProgressEvent_from_dict_lookup.
  assert (∃ st, match d !! "stage" with
                | Some v => Given <$> ProgressStage_call v
                | None => Ok UNSET
                end = Ok st ∧
                field_map (λ s, VStr (ProgressStage_value s)) st =
                  field_of_option (d !! "stage")) as (st & -> & Hst).
  { match goal with H : key_typed _ "stage" _ _ = true |- _ => revert H end.
    unfold key_typed, is_stage. destruct (d !! "stage") as [v|]; [|by exists UNSET].
    destruct (ProgressStage_call v) as [st| |] eqn:E; [|done..]. intros _.
    exists (Given st). simpl. by rewrite (ProgressStage_call_Ok _ _ E). }
  destruct (from_dict_nested_round_trip ProgressTrackDetails.from_dict
              ProgressTrackDetails.to_dict typed_ProgressTrackDetails)
    with (o := d !! "trackDetails") as (td & -> & Htd).
  { intros d' _. apply (faithful_round_trips CProgressTrackDetails),
      faithful_ProgressTrackDetails. }
  { by match goal with H : key_typed _ "trackDetails" _ _ = true |- _ => revert H end. }
  simpl. eexists. split; [done|]. split; [done|]. simpl. by rewrite Hst, Htd.
Qed.

Lemma faithful_DomainTracklist d :
  typed_DomainTracklist true d = true → faithful CDomainTracklist d.
Proof.
  intros H. split_typed H. unfold faithful. simpl.
  rewrite DomainTracklist_from_dict_lookup.
  match goal with H : key_typed _ "tracks" _ _ = true |- _ => revert H end.
  unfold key_typed. destruct (d !! "tracks") as [v|]; [|done..]. intros Hv.
  cbn [field_of_option].
  destruct (from_dict_items_round_trip DomainTrack.from_dict DomainTrack.to_dict
              typed_DomainTrack) with (v := v) as (xs & -> & Hxs); [|done|].
  { intros d' _. apply (faithful_round_trips CDomainTrack), faithful_DomainTrack. }
  simpl. eexists. split; [done|]. split; [done|]. simpl. by rewrite Hxs.
Qed.

Lemma faithful_JobStatus d :
  typed_JobStatus true d = true → faithful CJobStatus d.
Proof.
  intros H. split_typed H. unfold faithful. simpl.
  rewrite JobStatus_from_dict_lookup.
  match goal with H : key_typed _ "events" _ _ = true |- _ => revert H end.
  unfold key_typed at 1. destruct (d !! "events") as [v|]; [|done..]. intros Hv.
  cbn [field_of_option].
  destruct (from_dict_items_round_trip ProgressEvent.from_dict ProgressEvent.to_dict
              typed_ProgressEvent) with (v := v) as (xs & -> & Hxs); [|done|].
  { intros d' Hd'. by apply (faithful_round_trips CProgressEvent), faithful_ProgressEvent. }
  destruct (from_dict_nested_round_trip DomainTracklist.from_dict
              DomainTracklist.to_dict (typed_DomainTracklist true))
    with (o := d !! "tracklist") as (tl & -> & Htl).
  { intros d' Hd'.
    by apply (faithful_round_trips CDomainTracklist), faithful_DomainTracklist. }
  { by match goal with H : key_typed _ "tracklist" _ _ = true |- _ => revert H end. }
  simpl. eexists. split; [done|]. split; [done|]. simpl. by rewrite Hxs, Htl.
Qed.

Lemma faithful_JobResponse d :
  typed_JobResponse true d = true → faithful CJobResponse d.
Proof.
  intros H. split_typed H. unfold faithful. simpl.
  rewrite JobResponse_from_dict_lookup.
  match goal with H : key_typed _ "jobs" _ _ = true |- _ => revert H end.
  unfold key_typed. destruct (d !! "jobs") as [v|]; [|done..]. intros Hv.
  cbn [field_of_option].
  destruct (from_dict_items_round_trip JobStatus.from_dict JobStatus.to_dict
              (typed_JobStatus true)) with (v := v) as (xs & -> & Hxs); [|done|].
  { intros d' Hd'. by apply (faithful_round_trips CJobStatus), faithful_JobStatus. }
  simpl. eexists. split; [done|]. split; [done|]. simpl. by rewrite Hxs.
Qed.

Lemma faithful_JobRequest d :
  typed_JobRequest true d = true → faithful CJobRequest d.
Proof.
  intros H. split_typed H. unfold faithful. simpl.
  rewrite JobRequest_from_dict_lookup.
  repeat match goal with H : key_typed true _ _ _ = true |- _ => revert H end.
  unfold key_typed. destruct (d !! "tracklist"), (d !! "url"); try done.
  intros _ _. eexists. split; [done|]. by split.
Qed.

(** * Complete mappings are well typed *)

Lemma key_typed_weaken (r : bool) k (p q : value → bool) (d : dict) :
  (∀ v, p v = true → q v = true) →
  key_typed r k p d = true → key_typed false k q d = true.
Proof. unfold key_typed. intros Hpq. destruct (d !! k); [apply Hpq|done..]. Qed.

Lemma is_list_of_weaken (p q : value → bool) (v : value) :
  (∀ x, p x = true → q x = true) → is_list_of p v = true → is_list_of q v = true.
Proof.
  intros Hpq. destruct v as [| | | | |l|]; try done. simpl.
  rewrite !forallb_forall. auto.
Qed.

Lemma is_mapping_weaken (p q : dict → bool) (v : value) :
  (∀ x, p x = true → q x = true) → is_mapping p v = true → is_mapping q v = true.
Proof. intros Hpq. destruct v; try done. apply Hpq. Qed.

Ltac weaken_typed :=
  rewrite !andb_true_iff; intros H; destruct_and!; repeat split; try done;
  try (eapply key_typed_weaken; [|eassumption]; by auto).

Lemma typed_DomainTracklist_complete d :
  typed_DomainTracklist true d = true → typed_DomainTracklist false d = true.
Proof. unfold typed_DomainTracklist. weaken_typed. Qed.

Lemma typed_JobStatus_complete d :
  typed_JobStatus true d = true → typed_JobStatus false d = true.
Proof.
  unfold typed_JobStatus. weaken_typed.
  eapply key_typed_weaken; [|eassumption].
  intros v. apply is_mapping_weaken, typed_DomainTracklist_complete.
Qed.

Lemma typed_JobResponse_complete d :
  typed_JobResponse true d = true → typed_JobResponse false d = true.
Proof.
  unfold typed_JobResponse. weaken_typed.
  eapply key_typed_weaken; [|eassumption].
  intros v. apply is_list_of_weaken. intros x.
  apply is_mapping_weaken, typed_JobStatus_complete.
Qed.

Lemma typed_JobRequest_complete d :
  typed_JobRequest true d = true → typed_JobRequest false d = true.
Proof. unfold typed_JobRequest. weaken_typed. Qed.

(** The hypothesis of the amended round trip only adds to the hypothesis of
    the claim. *)
Lemma well_typed_complete c d :
  well_typed true c d = true → well_typed false c d = true.
Proof.
  destruct c; simpl; try done.
  - apply typed_JobRequest_complete.
  - apply typed_JobResponse_complete.
  - apply typed_JobStatus_complete.
  - apply typed_DomainTracklist_complete.
Qed.

(** * C1: the round trip through from_dict and to_dict *)

(** C1, counterexample.  Both mappings use only documented keys with
    well-typed values.  A JobRequest mapping without "url" does not round
    trip: [from_dict] raises [KeyError].  The empty JobResponse mapping comes
    back as a mapping with the key "jobs" and an empty list: the absent key
    is not kept apart from an explicitly present empty list. *)
Lemma C1_counterexample :
  (well_typed false CJobRequest request_without_url = true ∧
   from_dict CJobRequest request_without_url = Raise (KeyError "url")) ∧
  (well_typed false CJobResponse ∅ = true ∧
   ∃ m, from_dict CJobResponse ∅ = Ok m ∧
        JobResponse.jobs m = Given [] ∧
        to_dict CJobResponse m = {[ "jobs" := VList [] ]} ∧
        to_dict CJobResponse m ≠ ∅).
Proof.
  split; [split; [by vm_compute|reflexivity]|].
  split; [by vm_compute|]. eexists. split; [reflexivity|].
  split; [reflexivity|]. split; [reflexivity|].
  intros H. by apply (f_equal (λ d : dict, d !! "jobs")) in H.
Qed.

(** C1, amended.  For every model class and every mapping [d] that uses only
    the documented keys with well-typed values, and in which the required
    keys of JobRequest and every list-of-models key ("jobs", "events",
    "tracks", at every level of nesting) are present,
    [to_dict (from_dict d) = d]; each named field serializes to exactly what
    [d] holds under its key, so a key absent from [d] leaves the field unset
    and is absent from the output. *)
Theorem C1_round_trip (c : model_class) (d : dict) :
  well_typed true c d = true →
  round_trips c d ∧ faithful c d.
Proof.
  intros H.
  assert (faithful c d) as Hf; [|by split; [apply faithful_round_trips|]].
  destruct c; simpl in H.
  - by apply faithful_JobRequest.
  - by apply faithful_JobResponse.
  - by apply faithful_JobStatus.
  - by apply faithful_ProgressEvent.
  - apply faithful_DomainTrack.
  - by apply faithful_DomainTracklist.
  - apply faithful_ProgressTrackDetails.
Qed.

Lemma C1_round_trip_witness : round_trips CJobResponse sample_jobs_wire.
Proof.
  apply (C1_round_trip CJobResponse sample_jobs_wire). by vm_compute.
Defined.

(** * C3: the dispatch of the submit response *)

Section PostApiProcessDispatch.
Context {ServerMessageResponse ServerErrorResponse : Type}.
Variable ServerMessageResponse_from_dict : value → result ServerMessageResponse.
Variable ServerErrorResponse_from_dict : value → result ServerErrorResponse.

(** C3.  [_parse_response] returns a parsed ServerMessageResponse exactly
    when the status code is 202 and a parsed ServerErrorResponse exactly when
    the status code is 400 (in both cases the result is the parse of
    [response.json()], whose exception, if any, propagates), and for every
    other status code raises [UnexpectedStatus] when
    [raise_on_unexpected_status] is true and returns [None] when it is
    false. *)
Theorem C3_parse_response_dispatch (client : Client) (response : Response) :
  let parse :=
    _parse_response ServerMessageResponse_from_dict ServerErrorResponse_from_dict in
  (∀ m, parse client response = Ok (Some (ParsedMessage m)) →
        status_code response = 202%Z) ∧
  (status_code response = 202%Z →
   parse client response =
     (body ← json response; m ← ServerMessageResponse_from_dict body;
      Ok (Some (ParsedMessage m)))) ∧
  (∀ e, parse client response = Ok (Some (ParsedError e)) →
        status_code response = 400%Z) ∧
  (status_code response = 400%Z →
   parse client response =
     (body ← json response; e ← ServerErrorResponse_from_dict body;
      Ok (Some (ParsedError e)))) ∧
  (status_code response ≠ 202%Z → status_code response ≠ 400%Z →
   parse client response =
     if raise_on_unexpected_status client
     then Raise (UnexpectedStatus (status_code response) (content response))
     else Ok None).
Proof.
  cbv zeta. unfold _parse_response.
  destruct (Z.eqb_spec (status_code response) 202) as [E202|N202];
    [|destruct (Z.eqb_spec (status_code response) 400) as [E400|N400]].
  - repeat split; try done; try lia.
    intros e H. by inv_ok.
  - repeat split; try done; try lia.
    intros m H. by inv_ok.
  - repeat split; try done.
    + intros m H. by destruct (raise_on_unexpected_status client).
    + intros e H. by destruct (raise_on_unexpected_status client).
Qed.
End PostApiProcessDispatch.

Lemma C3_parse_response_dispatch_witness :
  _parse_response message_of error_of (mkClient true) accepted_response =
    Ok (Some (ParsedMessage (Given (VStr "started")))) ∧
  _parse_response message_of error_of (mkClient true) teapot_response =
    Raise (UnexpectedStatus 418 []) ∧
  _parse_response message_of error_of (mkClient false) teapot_response = Ok None.
Proof.
  split; [|split].
  - destruct (C3_parse_response_dispatch message_of error_of (mkClient true)
                accepted_response) as (_ & H & _).
    by rewrite H.
  - destruct (C3_parse_response_dispatch message_of error_of (mkClient true)
                teapot_response) as (_ & _ & _ & _ & H).
    by rewrite H.
  - destruct (C3_parse_response_dispatch message_of error_of (mkClient false)
                teapot_response) as (_ & _ & _ & _ & H).
    by rewrite H.
Defined.

(** * The event log and the state table *)











(** * C8: the status and the event log *)



Example happy_path_run :
  let j := job_run (Create "job-1" 0 true) happy_path in
  job_status j = COMPLETE ∧ length (job_events j) = 7 ∧
  implied_statuses (unflagged (job_events j)) =
    [INITIALIZING; DOWNLOADING; DOWNLOADING; IMPORTING; PROCESSING; PROCESSING; COMPLETE] ∧
  valid_path (implied_statuses (job_events j)) = false.
Proof. by vm_compute. Qed.

Example cancel_after_complete :
  let j := job_run (Create "job-1" 0 true) happy_path in
  Cancel j = (j, Some AlreadyTerminal).
Proof. by vm_compute. Qed.

(** * The order of the listing *)

Lemma id_le_trans : Transitive id_le.
Proof.
  intros a b c [->|Hab] [->|Hbc]; unfold id_le; auto.
  right. exact (transitivity (R := String_as_OT.lt) Hab Hbc).
Qed.

Lemma id_le_total : Total id_le.
Proof.
  intros a b. unfold id_le.
  destruct (String_as_OT.compare_spec a b) as [H|H|H]; auto.
Qed.

Lemma id_le_antisymm : AntiSymm eq id_le.
Proof.
  intros a b [->|Hab] [Hba|Hba]; try done.
  exfalso. apply (irreflexivity String_as_OT.lt a).
  exact (transitivity (R := String_as_OT.lt) Hab Hba).
Qed.

#[global] Instance job_le_trans : Transitive job_le.
Proof.
  intros a b c [Hab|[Hab Hid]] [Hbc|[Hbc Hid']]; unfold job_le;
    [left; lia|left; lia|left; lia|].
  right. split; [lia|]. by apply (id_le_trans _ (job_id b)).
Qed.

#[global] Instance job_le_total : Total job_le.
Proof.
  intros a b. unfold job_le.
  destruct (lt_eq_lt_dec (job_created a) (job_created b)) as [[?|Heq]|?];
    [auto|destruct (id_le_total (job_id a) (job_id b)); auto|auto].
Qed.

(** Two jobs that precede each other have the same identifier. *)
Lemma job_le_antisymm_id (a b : Job) : job_le a b → job_le b a → job_id a = job_id b.
Proof.
  intros [?|[? Hab]] [?|[? Hba]]; try lia. by apply id_le_antisymm.
Qed.

Lemma NoDup_fmap_eq {A B} (f : A → B) (l : list A) (x y : A) :
  NoDup (f <$> l) → x ∈ l → y ∈ l → f x = f y → x = y.
Proof.
  induction l as [|a l IH]; simpl; intros Hnd Hx Hy Hf.
  { by apply elem_of_nil in Hx. }
  apply NoDup_cons in Hnd as [Ha Hnd].
  apply elem_of_cons in Hx as [->|Hx], Hy as [->|Hy]; auto.
  - exfalso. apply Ha. rewrite Hf. by apply list_elem_of_fmap_2.
  - exfalso. apply Ha. rewrite <- Hf. by apply list_elem_of_fmap_2.
Qed.

(** The order of the listing does not depend on the order in which the
    registry hands over the jobs, as identifiers are unique. *)
Lemma merge_sort_job_le_deterministic (jobs jobs' : list Job) :
  NoDup (job_id <$> jobs) → jobs' ≡ₚ jobs →
  merge_sort job_le jobs' = merge_sort job_le jobs.
Proof.
  intros Hnd Hperm.
  apply (Sorted_unique_strong job_le).
  - intros x1 x2 H1 H2 H12 H21.
    apply (NoDup_fmap_eq job_id jobs); [done| | |by apply job_le_antisymm_id].
    + rewrite merge_sort_Permutation in H1. by rewrite <- Hperm.
    + by rewrite merge_sort_Permutation in H2.
  - apply Sorted_merge_sort, _.
  - apply Sorted_merge_sort, _.
  - by rewrite !merge_sort_Permutation.
Qed.

Lemma page_count_covers (total size : nat) :
  (1 ≤ size)%nat → (total ≤ page_count total size * size)%nat.
Proof.
  intros Hs. unfold page_count.
  pose proof (Nat.div_mod_eq (total + size - 1) size).
  pose proof (Nat.mod_upper_bound (total + size - 1) size). nia.
Qed.

Lemma page_count_tight (total size : nat) :
  (1 ≤ size)%nat → (1 ≤ total)%nat → ((page_count total size - 1) * size < total)%nat.
Proof.
  intros Hs Ht. unfold page_count.
  pose proof (Nat.div_mod_eq (total + size - 1) size).
  pose proof (Nat.mod_upper_bound (total + size - 1) size). nia.
Qed.

(** * C9: the paginated listing *)

(** C9.  For every collection of jobs and every request with [page >= 1]
    and [pageSize >= 1], the listing is a page of the jobs sorted by
    creation order with ties broken by identifier, the same whatever order
    the jobs are handed over in (identifiers being unique); [totalJobs] is
    the number of jobs and [totalPages] the least number of pages of the
    effective size that hold them all; a page beyond [totalPages] is empty
    with the same totals; [page < 1] or [pageSize < 1] fails with
    [InvalidRequest]; five jobs with [pageSize = 2] give 2 items on page 1,
    none on page 4, and [totalJobs = 5], [totalPages = 3] on both. *)
Theorem C9_page_listing (max_page_size : nat) (jobs : list Job) (page pageSize : Z) :
  (1 ≤ max_page_size)%nat →
  ((1 ≤ page)%Z → (1 ≤ pageSize)%Z →
   let size := Z.to_nat pageSize `min` max_page_size in
   let ordered := merge_sort job_le jobs in
   let totalPages := page_count (length jobs) size in
   ∃ items,
     Page max_page_size jobs page pageSize = inr (items, length jobs, totalPages) ∧
     items = take size (drop ((Z.to_nat page - 1) * size) ordered) ∧
     Sorted job_le ordered ∧ ordered ≡ₚ jobs ∧
     (∀ jobs', NoDup (job_id <$> jobs) → jobs' ≡ₚ jobs →
        Page max_page_size jobs' page pageSize = Page max_page_size jobs page pageSize) ∧
     (length jobs ≤ totalPages * size)%nat ∧
     ((1 ≤ length jobs)%nat → ((totalPages - 1) * size < length jobs)%nat) ∧
     ((totalPages < Z.to_nat page)%nat → items = [])) ∧
  ((page < 1 ∨ pageSize < 1)%Z →
   Page max_page_size jobs page pageSize = inl InvalidRequest) ∧
  (length jobs = 5%nat → (2 ≤ max_page_size)%nat →
   (∃ items, Page max_page_size jobs 1 2 = inr (items, 5%nat, 3%nat) ∧
             length items = 2%nat) ∧
   Page max_page_size jobs 4 2 = inr ([], 5%nat, 3%nat)).
Proof.
  intros Hmax. split; [|split].
  - intros Hpage Hsize size ordered totalPages.
    assert (1 ≤ size)%nat as Hs by (unfold size; lia).
    assert (length ordered = length jobs) as Hlen.
    { unfold ordered. by rewrite merge_sort_Permutation. }
    eexists. split; [|split; [reflexivity|]].
    { unfold Page. destruct (Z.ltb_spec page 1); [lia|].
      destruct (Z.ltb_spec pageSize 1); [lia|]. reflexivity. }
    split; [apply Sorted_merge_sort, _|]. split; [apply merge_sort_Permutation|].
    split; [|split; [|split]].
    + intros jobs' Hnd Hperm. unfold Page.
      by rewrite (merge_sort_job_le_deterministic jobs jobs' Hnd Hperm), Hperm.
    + by apply page_count_covers.
    + by apply page_count_tight.
    + intros Hbeyond. rewrite drop_ge; [by destruct size|].
      pose proof (page_count_covers (length jobs) size Hs).
      fold totalPages in H. rewrite Hlen. nia.
  - intros Hbad. unfold Page.
    destruct (Z.ltb_spec page 1), (Z.ltb_spec pageSize 1); try done. lia.
  - intros Hfive Htwo. unfold Page.
    change ((1 <? 1) || (2 <? 1))%Z with false.
    change ((4 <? 1) || (2 <? 1))%Z with false. cbv iota.
    assert (Z.to_nat 2 `min` max_page_size = 2)%nat as -> by lia.
    rewrite Hfive. change (page_count 5 2) with 3%nat. split.
    + eexists. split; [reflexivity|].
      rewrite length_take, length_drop, merge_sort_Permutation, Hfive. reflexivity.
    + rewrite drop_ge; [done|]. rewrite merge_sort_Permutation, Hfive.
      change (Z.to_nat 4) with 4%nat. lia.
Qed.

Lemma C9_page_listing_witness :
  Page 50 five_jobs 1 2 =
    inr ([mkJob "c" 0 PROCESSING []; mkJob "a" 1 COMPLETE []], 5%nat, 3%nat) ∧
  Page 50 five_jobs 4 2 = inr ([], 5%nat, 3%nat) ∧
  Page 50 five_jobs 0 2 = inl InvalidRequest.
Proof.
  assert (1 ≤ 50)%nat as Hmax by lia.
  split; [|split].
  - destruct (C9_page_listing 50 five_jobs 1 2 Hmax) as (H & _ & _).
    destruct H as (items & -> & -> & _); [lia|lia|]. by vm_compute.
  - destruct (C9_page_listing 50 five_jobs 4 2 Hmax) as (_ & _ & H).
    apply H; [reflexivity|lia].
  - destruct (C9_page_listing 50 five_jobs 0 2 Hmax) as (_ & H & _).
    apply H. lia.
Defined.

(** * Beyond the claims: what to_dict holds under every key *)

Lemma assoc_field_notin (fs : list (string * field value)) (i : string) :
  i ∉ fs.*1 → assoc_field i fs = UNSET.
Proof.
  induction fs as [|[k x] fs IH]; [done|]. simpl.
  intros [Hne Hi]%not_elem_of_cons.
  destruct (String.eqb_spec k i) as [->|_]; [done|]. by apply IH.
Qed.

Lemma lookup_write_fields (fs : list (string * field value)) (a : dict) (i : string) :
  NoDup fs.*1 →
  write_fields a fs !! i =
    match assoc_field i fs with Given v => Some v | UNSET => a !! i end.
Proof.
  revert a. induction fs as [|[k x] fs IH]; intros a Hnd; [done|].
  simpl in Hnd. apply NoDup_cons in Hnd as [Hk Hnd].
  unfold write_fields. simpl. fold (write_fields (set_if_given k x a) fs).
  rewrite IH by done.
  destruct (String.eqb_spec k i) as [->|Hne].
  - rewrite assoc_field_notin by done. apply lookup_set_if_given_eq.
  - destruct (assoc_field i fs); [|done..]. by apply lookup_set_if_given_ne.
Qed.

(** Key by key, [to_dict] holds the named field when it is set and the
    additional property otherwise. *)
Lemma lookup_to_dict c (m : model c) (i : string) :
  to_dict c m !! i =
    match assoc_field i (named_fields c m) with
    | Given v => Some v
    | UNSET => additional_properties c m !! i
    end.
Proof.
  rewrite to_dict_write_fields. apply lookup_write_fields.
  rewrite named_fields_keys. apply wire_keys_NoDup.
Qed.

Lemma dom_write_fields (fs : list (string * field value)) (a : dict) :
  dom (write_fields a fs) = dom a ∪ list_to_set (given_keys fs).
Proof.
  revert a. induction fs as [|[k x] fs IH]; intros a.
  { unfold given_keys. simpl. by rewrite union_empty_r_L. }
  unfold write_fields. simpl. fold (write_fields (set_if_given k x a) fs).
  rewrite IH. unfold given_keys. destruct x as [|v].
  - rewrite filter_cons_False; [done|]. simpl. by intros [=].
  - rewrite filter_cons_True by done. simpl. rewrite dom_insert_L.
    apply set_eq. intros i. set_unfold. tauto.
Qed.

Lemma additional_properties_with c (m : model c) (a : dict) :
  additional_properties c (with_additional_properties c m a) = a.
Proof. by destruct c. Qed.

Lemma named_fields_with c (m : model c) (a : dict) :
  named_fields c (with_additional_properties c m a) = named_fields c m.
Proof. by destruct c. Qed.

Lemma with_additional_properties_same c (m : model c) :
  with_additional_properties c m (additional_properties c m) = m.
Proof. by destruct c, m. Qed.

Lemma with_additional_properties_twice c (m : model c) (a b : dict) :
  with_additional_properties c (with_additional_properties c m a) b =
  with_additional_properties c m b.
Proof. by destruct c. Qed.

(** X1.  For every object of every model class, the keys of [to_dict] are
    the keys of [additional_properties] together with the wire keys of the
    named fields that are set: a wire key whose field is unset is emitted
    only if [additional_properties] holds it, and nothing else is ever
    emitted. *)
Theorem X1_to_dict_keys (c : model_class) (m : model c) :
  dom (to_dict c m) =
    dom (additional_properties c m) ∪ list_to_set (given_keys (named_fields c m)).
Proof. rewrite to_dict_write_fields. apply dom_write_fields. Qed.

(** X2.  After a successful [from_dict], [additional_keys] are exactly the
    keys of the input that are not wire keys of the class; a wire key is
    never among them, so [__contains__] answers false and [__getitem__]
    raises [KeyError] on every wire key, also when the named field is set. *)
Theorem X2_additional_keys_exact (c : model_class) (d : dict) (m : model c) :
  from_dict c d = Ok m →
  ∀ k, (k ∈ additional_keys c m ↔ is_Some (d !! k) ∧ k ∉ wire_keys c) ∧
       (k ∈ wire_keys c →
        __contains__ c m k = false ∧ __getitem__ c m k = Raise (KeyError k)).
Proof.
  intros Hfrom k.
  pose proof (from_dict_additional_properties c d m Hfrom) as Hadd.
  assert (additional_properties c m !! k =
          if decide (k ∈ wire_keys c) then None else d !! k) as Hk.
  { by rewrite Hadd, lookup_remove_keys. }
  split.
  - unfold additional_keys. rewrite list_elem_of_fmap. split.
    + intros ([k' v] & -> & Hin). apply elem_of_map_to_list in Hin.
      simpl in *. rewrite Hk in Hin. by destruct (decide (k' ∈ wire_keys c)).
    + intros [[v Hv] Hnot]. exists (k, v). split; [done|].
      apply elem_of_map_to_list. rewrite Hk. by destruct (decide (k ∈ wire_keys c)).
  - intros Hin. unfold __contains__, __getitem__. rewrite Hk.
    by destruct (decide (k ∈ wire_keys c)).
Qed.

Lemma X2_additional_keys_exact_witness :
  "x-trace" ∈ additional_keys CJobStatus
    (JobStatus.mk UNSET UNSET (Given []) UNSET UNSET UNSET UNSET UNSET
       (Given (VStr "processing")) UNSET {[ "x-trace" := VInt 7 ]}) ∧
  __getitem__ CJobStatus
    (JobStatus.mk UNSET UNSET (Given []) UNSET UNSET UNSET UNSET UNSET
       (Given (VStr "processing")) UNSET {[ "x-trace" := VInt 7 ]}) "status" =
    Raise (KeyError "status").
Proof.
  pose proof (X2_additional_keys_exact CJobStatus sample_status_wire _ eq_refl) as H.
  split.
  - apply (H "x-trace"). split; [by eexists|].
    apply (bool_decide_unpack _). by vm_compute.
  - apply (H "status"). apply (bool_decide_unpack _). by vm_compute.
Defined.

(** X3.  [__setitem__] stores the value where [__getitem__] and
    [__contains__] find it, leaves every other additional property and
    every named field alone, and shows in [to_dict] under that key unless a
    set named field has the same wire key, in which case the serialized
    mapping does not change at all. *)
Theorem X3_setitem (c : model_class) (m : model c) (k : string) (v : value) :
  __getitem__ c (__setitem__ c m k v) k = Ok v ∧
  __contains__ c (__setitem__ c m k v) k = true ∧
  (∀ k', k' ≠ k → __getitem__ c (__setitem__ c m k v) k' = __getitem__ c m k') ∧
  named_fields c (__setitem__ c m k v) = named_fields c m ∧
  to_dict c (__setitem__ c m k v) =
    match assoc_field k (named_fields c m) with
    | Given _ => to_dict c m
    | UNSET => <[k := v]> (to_dict c m)
    end.
Proof.
  unfold __getitem__, __contains__, __setitem__.
  rewrite !additional_properties_with, named_fields_with, lookup_insert_eq.
  repeat split; try done.
  - intros k' Hne. by rewrite lookup_insert_ne.
  - apply map_eq. intros i.
    rewrite lookup_to_dict, named_fields_with, additional_properties_with.
    destruct (decide (i = k)) as [->|Hne].
    + rewrite lookup_insert_eq.
      destruct (assoc_field k (named_fields c m)) eqn:E.
      * by rewrite lookup_insert_eq.
      * by rewrite lookup_to_dict, E.
    + rewrite lookup_insert_ne by done.
      destruct (assoc_field k (named_fields c m));
        [rewrite lookup_insert_ne by done|]; by rewrite lookup_to_dict.
Qed.

(** X4.  [__delitem__] raises [KeyError] exactly when the key is not an
    additional property and changes nothing then; otherwise it removes that
    one additional property, keeps the named fields, and storing the removed
    value again gives the object back. *)
Theorem X4_delitem (c : model_class) (m : model c) (k : string) :
  (__contains__ c m k = false ↔ __delitem__ c m k = Raise (KeyError k)) ∧
  (∀ v, __getitem__ c m k = Ok v →
     ∃ m', __delitem__ c m k = Ok m' ∧
           __contains__ c m' k = false ∧
           (∀ k', k' ≠ k → __getitem__ c m' k' = __getitem__ c m k') ∧
           named_fields c m' = named_fields c m ∧
           __setitem__ c m' k v = m).
Proof.
  unfold __contains__, __delitem__, __getitem__, __setitem__.
  destruct (additional_properties c m !! k) as [v0|] eqn:E.
  - split; [done|]. intros v [= ->]. eexists. split; [done|].
    rewrite !additional_properties_with, named_fields_with, lookup_delete_eq.
    repeat split; try done.
    + intros k' Hne. by rewrite lookup_delete_ne.
    + rewrite with_additional_properties_twice, insert_delete_eq, insert_id by done.
      apply with_additional_properties_same.
  - by split.
Qed.

Lemma X4_delitem_witness :
  ∃ m', __delitem__ CJobRequest request_with_stray_key "fileExtension" = Ok m' ∧
        __contains__ CJobRequest m' "fileExtension" = false ∧
        __setitem__ CJobRequest m' "fileExtension" (VStr "mp3") = request_with_stray_key.
Proof.
  destruct (X4_delitem CJobRequest request_with_stray_key "fileExtension") as [_ H].
  destruct (H (VStr "mp3") eq_refl) as (m' & Hdel & Hc & _ & _ & Hset).
  by exists m'.
Defined.

(** X5.  The string of a stage parses back to that stage, distinct stages
    have distinct strings, and every value [ProgressStage(v)] accepts is the
    string of the member it returns. *)
Theorem X5_stage_str_round_trip (s : ProgressStage) :
  ProgressStage_call (VStr (ProgressStage_str s)) = Ok s ∧
  (∀ s', ProgressStage_str s = ProgressStage_str s' → s = s') ∧
  (∀ v, ProgressStage_call v = Ok s → v = VStr (ProgressStage_str s)).
Proof.
  split; [apply ProgressStage_call_value|]. split.
  - intros s' H. by destruct s, s'.
  - intros v. apply ProgressStage_call_Ok.
Qed.

Lemma X3_setitem_witness :
  to_dict CProgressEvent (__setitem__ CProgressEvent colliding_event "stage" (VStr "late")) =
    to_dict CProgressEvent colliding_event ∧
  __getitem__ CProgressEvent
    (__setitem__ CProgressEvent colliding_event "stage" (VStr "late")) "message" = Ok VNull.
Proof.
  destruct (X3_setitem CProgressEvent colliding_event "stage" (VStr "late"))
    as (_ & _ & Hother & _ & Hto).
  split; [exact Hto|]. by rewrite Hother.
Defined.

Lemma X5_stage_str_round_trip_witness :
  ProgressStage_call (VStr "importing") = Ok IMPORTING ∧
  VStr "importing" = VStr (ProgressStage_str IMPORTING).
Proof.
  destruct (X5_stage_str_round_trip IMPORTING) as (Hcall & _ & Hinv).
  split; [exact Hcall|]. by apply Hinv.
Defined.

(** * Beyond the claims: what from_dict checks and what it does not *)

Lemma faithful_JobRequest_keys (d : dict) :
  is_Some (d !! "tracklist") → is_Some (d !! "url") → faithful CJobRequest d.
Proof.
  intros Ht Hu. unfold faithful. simpl.
  rewrite JobRequest_from_dict_lookup.
  destruct (d !! "tracklist") as [t|]; [|by destruct Ht].
  destruct (d !! "url") as [u|]; [|by destruct Hu].
  eexists. split; [done|]. by split.
Qed.

Lemma faithful_ProgressEvent_structure (d : dict) :
  stage_acceptable d = true →
  match d !! "trackDetails" with Some (VDict _) | None => True | _ => False end →
  faithful CProgressEvent d.
Proof.
  intros Hstage Htd. unfold faithful. simpl.
  rewrite ProgressEvent_from_dict_lookup.
  assert (∃ st, match d !! "stage" with
                | Some v => Given <$> ProgressStage_call v
                | None => Ok UNSET
                end = Ok st ∧
                field_map (λ s, VStr (ProgressStage_value s)) st =
                  field_of_option (d !! "stage")) as (st & -> & Hst).
  { revert Hstage. unfold stage_acceptable, is_stage.
    destruct (d !! "stage") as [v|]; [|by exists UNSET].
    destruct (ProgressStage_call v) as [st| |] eqn:E; [|done..]. intros _.
    exists (Given st). simpl. by rewrite (ProgressStage_call_Ok _ _ E). }
  destruct (from_dict_nested_round_trip ProgressTrackDetails.from_dict
              ProgressTrackDetails.to_dict (λ _, true))
    with (o := d !! "trackDetails") as (td & -> & Htd').
  { intros d' _. apply (faithful_round_trips CProgressTrackDetails),
      faithful_ProgressTrackDetails. }
  { by destruct (d !! "trackDetails") as [[]|]. }
  simpl. eexists. split; [done|]. split; [done|]. simpl. by rewrite Hst, Htd'.
Qed.

(** X7.  The outcome of [ProgressEvent.from_dict] is settled by two entries
    of the mapping.  A "stage" entry that names no member of ProgressStage
    makes it raise [ValueError], whatever "trackDetails" holds.  Otherwise
    it returns when there is no "trackDetails" entry, and with one it does
    what [dict()] does on that value: it returns when [dict()] returns (so
    for a mapping, and for a list of key/value pairs), and raises the
    exception [dict()] raises.  No other entry can make it raise. *)
Theorem X7_ProgressEvent_from_dict_returns (d : dict) :
  (stage_acceptable d = false → ProgressEvent.from_dict d = Raise ValueError) ∧
  (stage_acceptable d = true →
     match d !! "trackDetails" with
     | None => ∃ ev, ProgressEvent.from_dict d = Ok ev
     | Some w =>
         match py_dict w with
         | Ok _ => ∃ ev, ProgressEvent.from_dict d = Ok ev
         | Raise e => ProgressEvent.from_dict d = Raise e
         | Unmodelled => ProgressEvent.from_dict d = Unmodelled
         end
     end).
Proof.
  rewrite ProgressEvent_from_dict_lookup. unfold stage_acceptable, is_stage.
  destruct (d !! "stage") as [v|];
    [destruct (ProgressStage_call v) as [st|e|] eqn:E|]; simpl.
  3: by apply ProgressStage_call_modelled in E.
  2: { split; [|done]. intros _. by apply ProgressStage_call_Raise in E as ->. }
  all: split; [done|]; intros _.
  all: destruct (d !! "trackDetails") as [w|]; simpl; [|by eexists].
  all: destruct (py_dict w) as [dw|e'|]; simpl; [by eexists|done..].
Qed.

Lemma X7_ProgressEvent_from_dict_returns_witness :
  (∃ ev, ProgressEvent.from_dict track_details_pairs_wire = Ok ev) ∧
  ProgressEvent.from_dict (<["stage" := VStr "paused"]> sample_event_wire) =
    Raise ValueError ∧
  ProgressEvent.from_dict {[ "trackDetails" := VInt 3 ]} = Raise TypeError.
Proof.
  split; [|split].
  - destruct (X7_ProgressEvent_from_dict_returns track_details_pairs_wire) as [_ H].
    by apply H.
  - destruct (X7_ProgressEvent_from_dict_returns
                (<["stage" := VStr "paused"]> sample_event_wire)) as [H _].
    by apply H.
  - destruct (X7_ProgressEvent_from_dict_returns {[ "trackDetails" := VInt 3 ]}) as [_ H].
    by apply H.
Defined.

Lemma from_dict_items_falsy {A} (from : dict → result A) (x : field value) :
  match x with UNSET => True | Given v => truthy v = false end →
  from_dict_items from x = Ok [].
Proof.
  unfold from_dict_items, or_empty_list. destruct x as [|v]; [done|].
  by intros ->.
Qed.

Lemma field_of_option_falsy (o : option value) :
  match o with None => True | Some v => truthy v = false end →
  match field_of_option o with UNSET => True | Given v => truthy v = false end.
Proof. by destruct o. Qed.

(** X8.  After [from_dict], a field holding a list of models is never
    unset: "jobs" of a JobResponse, "events" of a JobStatus and "tracks" of
    a DomainTracklist always hold a list, which is empty when the key is
    absent and when its value is falsy (null, false, 0, an empty string,
    list or mapping). *)
Theorem X8_list_fields_never_unset (d : dict) :
  (∀ m, JobResponse.from_dict d = Ok m →
     ∃ js, JobResponse.jobs m = Given js ∧
           (match d !! "jobs" with None => True | Some v => truthy v = false end →
            js = [])) ∧
  (∀ m, JobStatus.from_dict d = Ok m →
     ∃ es, JobStatus.events m = Given es ∧
           (match d !! "events" with None => True | Some v => truthy v = false end →
            es = [])) ∧
  (∀ m, DomainTracklist.from_dict d = Ok m →
     ∃ ts, DomainTracklist.tracks m = Given ts ∧
           (match d !! "tracks" with None => True | Some v => truthy v = false end →
            ts = [])).
Proof.
  split; [|split]; intros m H.
  - rewrite JobResponse_from_dict_lookup in H. inv_ok.
    eexists. split; [done|]. intros Hf.
    rewrite from_dict_items_falsy in Hcall by by apply field_of_option_falsy.
    by injection Hcall.
  - rewrite JobStatus_from_dict_lookup in H. inv_ok.
    eexists. split; [done|]. intros Hf.
    rewrite from_dict_items_falsy in Hcall by by apply field_of_option_falsy.
    by injection Hcall.
  - rewrite DomainTracklist_from_dict_lookup in H. inv_ok.
    eexists. split; [done|]. intros Hf.
    rewrite from_dict_items_falsy in Hcall by by apply field_of_option_falsy.
    by injection Hcall.
Qed.

Lemma X8_list_fields_never_unset_witness :
  ∃ js, JobResponse.jobs
          (JobResponse.mk (Given []) UNSET UNSET UNSET UNSET ∅) = Given js ∧ js = [].
Proof.
  destruct (X8_list_fields_never_unset {[ "jobs" := VNull ]}) as (H & _ & _).
  destruct (H (JobResponse.mk (Given []) UNSET UNSET UNSET UNSET ∅) eq_refl)
    as (js & Hjs & Hempty).
  exists js. split; [exact Hjs|]. by apply Hempty.
Defined.

Lemma mapM_Ok_Forall2 {A B} (f : A → result B) (l : list A) (xs : list B) :
  mapM f l = Ok xs → Forall2 (λ a b, f a = Ok b) l xs.
Proof.
  revert xs. induction l as [|a l IH]; simpl; intros xs H.
  { injection H as <-. constructor. }
  destruct (f a) as [b| |] eqn:Ea; [simpl in H|done..].
  destruct (mapM f l) as [ys| |] eqn:El; [simpl in H|done..].
  injection H as <-. constructor; [done|]. by apply IH.
Qed.

Lemma from_dict_items_list {A} (from : dict → result A) (l : list value) (xs : list A) :
  from_dict_items from (Given (VList l)) = Ok xs →
  Forall2 (λ v x, ∃ d, py_dict v = Ok d ∧ from d = Ok x) l xs.
Proof.
  unfold from_dict_items. intros H.
  assert (mapM (λ item_data, d ← py_dict item_data; from d) l = Ok xs) as Hm.
  { by destruct l. }
  apply mapM_Ok_Forall2 in Hm. eapply Forall2_impl; [exact Hm|].
  intros v x Hv. simpl in Hv. destruct (py_dict v) as [d| |]; [|done..]. by exists d.
Qed.

(** X9.  A list of models is parsed all or nothing and in order: when
    [from_dict] returns on a mapping whose "jobs" ("events", "tracks") entry
    is a list, the field holds one model per item, in the same order, each
    the parse of its item; a single item that does not parse makes the whole
    call raise. *)
Theorem X9_list_items_in_order (d : dict) (l : list value) :
  (d !! "jobs" = Some (VList l) → ∀ m, JobResponse.from_dict d = Ok m →
     ∃ js, JobResponse.jobs m = Given js ∧ length js = length l ∧
           Forall2 (λ v j, ∃ dj, py_dict v = Ok dj ∧ JobStatus.from_dict dj = Ok j) l js) ∧
  (d !! "events" = Some (VList l) → ∀ m, JobStatus.from_dict d = Ok m →
     ∃ es, JobStatus.events m = Given es ∧ length es = length l ∧
           Forall2 (λ v e, ∃ de, py_dict v = Ok de ∧ ProgressEvent.from_dict de = Ok e) l es) ∧
  (d !! "tracks" = Some (VList l) → ∀ m, DomainTracklist.from_dict d = Ok m →
     ∃ ts, DomainTracklist.tracks m = Given ts ∧ length ts = length l ∧
           Forall2 (λ v t, ∃ dt, py_dict v = Ok dt ∧ DomainTrack.from_dict dt = Ok t) l ts).
Proof.
  split; [|split]; intros Hl m H.
  - rewrite JobResponse_from_dict_lookup, Hl in H. simpl in H. inv_ok.
    apply from_dict_items_list in Hcall. eexists. split; [done|].
    split; [symmetry; by eapply Forall2_length|done..].
  - rewrite JobStatus_from_dict_lookup, Hl in H. simpl in H. inv_ok.
    apply from_dict_items_list in Hcall. eexists. split; [done|].
    split; [symmetry; by eapply Forall2_length|done..].
  - rewrite DomainTracklist_from_dict_lookup, Hl in H. simpl in H. inv_ok.
    apply from_dict_items_list in Hcall. eexists. split; [done|].
    split; [symmetry; by eapply Forall2_length|done..].
Qed.

Lemma X9_list_items_in_order_witness :
  ∃ es, JobStatus.events
          (JobStatus.mk UNSET UNSET
             (Given [ProgressEvent.mk UNSET UNSET UNSET (Given (VInt 1)) (Given IMPORTING)
                       UNSET UNSET ∅;
                     ProgressEvent.mk UNSET (Given (VStr "disk full")) UNSET UNSET
                       (Given DOWNLOADING) UNSET UNSET ∅])
             UNSET UNSET UNSET UNSET UNSET UNSET UNSET ∅) = Given es ∧
        length es = 2%nat.
Proof.
  destruct (X9_list_items_in_order mixed_events_wire
              [VDict sample_event_wire; VDict failing_download_wire]) as (_ & H & _).
  destruct (H eq_refl _ eq_refl) as (es & Hes & Hlen & _). by exists es.
Defined.

(** * Beyond the claims: serializing, then parsing *)

Lemma no_wire_keys_lookup c (a : dict) (k : string) :
  no_wire_keys c a = true → k ∈ wire_keys c → a !! k = None.
Proof.
  unfold no_wire_keys. rewrite forallb_forall. intros H Hin.
  apply list_elem_of_In in Hin. specialize (H k Hin). by destruct (a !! k).
Qed.

Lemma no_wire_keys_remove_keys c (d : dict) :
  no_wire_keys c (remove_keys (wire_keys c) d) = true.
Proof.
  unfold no_wire_keys. apply forallb_forall. intros k Hin.
  apply list_elem_of_In in Hin. rewrite lookup_remove_keys.
  by destruct (decide (k ∈ wire_keys c)).
Qed.

Lemma lookup_to_dict_wire c (m : model c) (k : string) :
  no_wire_keys c (additional_properties c m) = true → k ∈ wire_keys c →
  to_dict c m !! k = field_to_option (assoc_field k (named_fields c m)).
Proof.
  intros Hc Hin. rewrite lookup_to_dict.
  destruct (assoc_field k (named_fields c m)); [|done..].
  by apply (no_wire_keys_lookup c).
Qed.

Lemma remove_keys_to_dict c (m : model c) :
  no_wire_keys c (additional_properties c m) = true →
  remove_keys (wire_keys c) (to_dict c m) = additional_properties c m.
Proof.
  intros Hc. apply map_eq. intros i. rewrite lookup_remove_keys.
  destruct (decide (i ∈ wire_keys c)) as [Hin|Hin].
  - symmetry. by apply (no_wire_keys_lookup c).
  - rewrite lookup_to_dict, assoc_field_notin; [done|].
    by rewrite named_fields_keys.
Qed.

Lemma field_of_to_option {A} (x : field A) : field_of_option (field_to_option x) = x.
Proof. by destruct x. Qed.

Lemma from_dict_items_to_value {A} (from : dict → result A) (to : A → dict)
    (xs : list A) :
  Forall (λ x, from (to x) = Ok x) xs →
  from_dict_items from (Given (items_to_value to xs)) = Ok xs.
Proof.
  intros H. unfold from_dict_items, items_to_value.
  assert (mapM (λ item_data, d ← py_dict item_data; from d)
            ((λ x, VDict (to x)) <$> xs) = Ok xs) as Hm.
  { induction H as [|x xs Hx _ IH]; [done|].
    rewrite fmap_cons. simpl. rewrite Hx. simpl. by rewrite IH. }
  by destruct xs.
Qed.

Lemma from_dict_items_parsed {A} (from : dict → result A) (x : field value)
    (xs : list A) :
  from_dict_items from x = Ok xs → Forall (λ a, ∃ d, from d = Ok a) xs.
Proof.
  unfold from_dict_items. intros H.
  destruct (py_iter (or_empty_list x)) as [l| |]; [simpl in H|done..].
  apply mapM_Ok_Forall2 in H. induction H as [|v a l xs Hv _ IH]; constructor; [|done..].
  simpl in Hv. destruct (py_dict v) as [d| |]; [|done..]. by exists d.
Qed.

Lemma forallb_parsed {A} (from : dict → result A) (p : A → bool) (xs : list A) :
  (∀ d a, from d = Ok a → p a = true) →
  Forall (λ a, ∃ d, from d = Ok a) xs → forallb p xs = true.
Proof.
  intros Hp H. apply forallb_forall. intros a Hin.
  rewrite Forall_forall in H. apply list_elem_of_In in Hin.
  destruct (H a Hin) as [d Hd]. by apply (Hp d).
Qed.

Lemma forallb_reparse {A} (from : dict → result A) (to : A → dict) (p : A → bool)
    (xs : list A) :
  (∀ a, p a = true → from (to a) = Ok a) →
  forallb p xs = true → Forall (λ x, from (to x) = Ok x) xs.
Proof.
  intros Hp H. rewrite forallb_forall in H. apply Forall_forall. intros a Hin.
  apply Hp, H. by apply list_elem_of_In.
Qed.

#[local] Arguments ProgressStage_call : simpl never.
#[local] Arguments ProgressTrackDetails.from_dict : simpl never.
#[local] Arguments ProgressTrackDetails.to_dict : simpl never.
#[local] Arguments DomainTrack.from_dict : simpl never.
#[local] Arguments DomainTrack.to_dict : simpl never.
#[local] Arguments DomainTracklist.from_dict : simpl never.
#[local] Arguments DomainTracklist.to_dict : simpl never.
#[local] Arguments ProgressEvent.from_dict : simpl never.
#[local] Arguments ProgressEvent.to_dict : simpl never.
#[local] Arguments JobStatus.from_dict : simpl never.
#[local] Arguments JobStatus.to_dict : simpl never.

(** Reading back the wire keys of a serialized object whose additional
    properties hold no wire key. *)
Ltac read_back c m Hc :=
  rewrite ?(lookup_to_dict_wire c m)
    by first [exact Hc | apply (bool_decide_unpack _); by vm_compute];
  rewrite (remove_keys_to_dict c m Hc);
  simpl; rewrite ?field_of_to_option.

Lemma reparse_ProgressTrackDetails m :
  canonical_ProgressTrackDetails m = true →
  ProgressTrackDetails.from_dict (ProgressTrackDetails.to_dict m) = Ok m.
Proof.
  intros Hc. rewrite ProgressTrackDetails_from_dict_lookup.
  change (ProgressTrackDetails.to_dict m) with (to_dict CProgressTrackDetails m).
  read_back CProgressTrackDetails m Hc. by destruct m.
Qed.

Lemma reparse_DomainTrack m :
  canonical_DomainTrack m = true → DomainTrack.from_dict (DomainTrack.to_dict m) = Ok m.
Proof.
  intros Hc. rewrite DomainTrack_from_dict_lookup.
  change (DomainTrack.to_dict m) with (to_dict CDomainTrack m).
  read_back CDomainTrack m Hc. by destruct m.
Qed.

Lemma reparse_JobRequest m :
  canonical_JobRequest m = true → JobRequest.from_dict (JobRequest.to_dict m) = Ok m.
Proof.
  intros Hc. rewrite JobRequest_from_dict_lookup.
  change (JobRequest.to_dict m) with (to_dict CJobRequest m).
  read_back CJobRequest m Hc. by destruct m.
Qed.

Lemma from_dict_nested_to_value {A} (from : dict → result A) (to : A → dict) (a : A) :
  from (to a) = Ok a → from_dict_nested from (Given (VDict (to a))) = Ok (Given a).
Proof. intros H. simpl. by rewrite H. Qed.

Lemma reparse_ProgressEvent m :
  canonical_ProgressEvent m = true →
  ProgressEvent.from_dict (ProgressEvent.to_dict m) = Ok m.
Proof.
  intros H. apply andb_prop in H as [Hc Htd].
  rewrite ProgressEvent_from_dict_lookup.
  change (ProgressEvent.to_dict m) with (to_dict CProgressEvent m).
  read_back CProgressEvent m Hc.
  destruct m as [? ? ? ? stage ? track_details ?]. simpl in *.
  destruct stage as [|st], track_details as [|td]; cbn [field_map field_to_option];
    rewrite ?ProgressStage_call_value;
    rewrite ?(from_dict_nested_to_value ProgressTrackDetails.from_dict
                ProgressTrackDetails.to_dict) by (by apply reparse_ProgressTrackDetails);
    done.
Qed.

Lemma reparse_DomainTracklist m :
  canonical_DomainTracklist m = true →
  DomainTracklist.from_dict (DomainTracklist.to_dict m) = Ok m.
Proof.
  intros H. apply andb_prop in H as [Hc Hts].
  rewrite DomainTracklist_from_dict_lookup.
  change (DomainTracklist.to_dict m) with (to_dict CDomainTracklist m).
  read_back CDomainTracklist m Hc.
  destruct m as [? ? ? tracks ? ?]. simpl in *.
  destruct tracks as [|ts]; [done|]. cbn [field_map].
  rewrite (from_dict_items_to_value DomainTrack.from_dict DomainTrack.to_dict); [done|].
  eapply forallb_reparse; [apply reparse_DomainTrack|done..].
Qed.

Lemma reparse_JobStatus m :
  canonical_JobStatus m = true → JobStatus.from_dict (JobStatus.to_dict m) = Ok m.
Proof.
  intros H. apply andb_prop in H as [H Htl]. apply andb_prop in H as [Hc Hes].
  rewrite JobStatus_from_dict_lookup.
  change (JobStatus.to_dict m) with (to_dict CJobStatus m).
  read_back CJobStatus m Hc.
  destruct m as [? ? events ? ? ? ? ? ? tracklist ?]. simpl in *.
  destruct events as [|es]; [done|]. cbn [field_map].
  rewrite (from_dict_items_to_value ProgressEvent.from_dict ProgressEvent.to_dict).
  2: { eapply forallb_reparse; [apply reparse_ProgressEvent|done..]. }
  destruct tracklist as [|tl]; cbn [field_map]; [done|].
  rewrite (from_dict_nested_to_value DomainTracklist.from_dict DomainTracklist.to_dict);
    [done|by apply reparse_DomainTracklist].
Qed.

Lemma reparse_JobResponse m :
  canonical_JobResponse m = true → JobResponse.from_dict (JobResponse.to_dict m) = Ok m.
Proof.
  intros H. apply andb_prop in H as [Hc Hjs].
  rewrite JobResponse_from_dict_lookup.
  change (JobResponse.to_dict m) with (to_dict CJobResponse m).
  read_back CJobResponse m Hc.
  destruct m as [jobs ? ? ? ? ?]. simpl in *.
  destruct jobs as [|js]; [done|]. cbn [field_map].
  rewrite (from_dict_items_to_value JobStatus.from_dict JobStatus.to_dict); [done|].
  eapply forallb_reparse; [apply reparse_JobStatus|done..].
Qed.

Lemma reparse c (m : model c) :
  canonical c m = true → from_dict c (to_dict c m) = Ok m.
Proof.
  destruct c; simpl.
  - apply reparse_JobRequest.
  - apply reparse_JobResponse.
  - apply reparse_JobStatus.
  - apply reparse_ProgressEvent.
  - apply reparse_DomainTrack.
  - apply reparse_DomainTracklist.
  - apply reparse_ProgressTrackDetails.
Qed.

Lemma from_dict_no_wire_keys c d (m : model c) :
  from_dict c d = Ok m → no_wire_keys c (additional_properties c m) = true.
Proof.
  intros H. rewrite (from_dict_additional_properties c d m H).
  apply no_wire_keys_remove_keys.
Qed.

Lemma from_dict_nested_parsed {A} (from : dict → result A) (p : A → bool)
    (x : field value) (y : field A) :
  (∀ d a, from d = Ok a → p a = true) →
  from_dict_nested from x = Ok y → canonical_nested p y = true.
Proof.
  intros Hp. destruct x as [|v]; simpl; [by intros [= <-]|].
  destruct (py_dict v) as [d| |]; simpl; [|done..].
  destruct (from d) as [a| |] eqn:E; simpl; [|done..].
  intros [= <-]. simpl. by apply (Hp d).
Qed.

Lemma canonical_from_ProgressEvent d m :
  ProgressEvent.from_dict d = Ok m → canonical_ProgressEvent m = true.
Proof.
  intros H. unfold canonical_ProgressEvent. apply andb_true_intro.
  split; [exact (from_dict_no_wire_keys CProgressEvent d m H)|].
  rewrite ProgressEvent_from_dict_lookup in H. inv_ok. simpl.
  eapply from_dict_nested_parsed; [|done..].
  intros d' td Htd. apply (from_dict_no_wire_keys CProgressTrackDetails d' td Htd).
Qed.

Lemma canonical_from_DomainTracklist d m :
  DomainTracklist.from_dict d = Ok m → canonical_DomainTracklist m = true.
Proof.
  intros H. unfold canonical_DomainTracklist. apply andb_true_intro.
  split; [exact (from_dict_no_wire_keys CDomainTracklist d m H)|].
  rewrite DomainTracklist_from_dict_lookup in H. inv_ok. simpl.
  eapply forallb_parsed; [|by eapply from_dict_items_parsed].
  intros d' t Ht. apply (from_dict_no_wire_keys CDomainTrack d' t Ht).
Qed.

Lemma canonical_from_JobStatus d m :
  JobStatus.from_dict d = Ok m → canonical_JobStatus m = true.
Proof.
  intros H. unfold canonical_JobStatus.
  pose proof (from_dict_no_wire_keys CJobStatus d m H) as Hc.
  rewrite JobStatus_from_dict_lookup in H. inv_ok. simpl in *.
  rewrite Hc. simpl. apply andb_true_intro. split.
  - eapply forallb_parsed; [|by eapply from_dict_items_parsed].
    apply canonical_from_ProgressEvent.
  - eapply from_dict_nested_parsed; [|done..]. apply canonical_from_DomainTracklist.
Qed.

Lemma canonical_from_JobResponse d m :
  JobResponse.from_dict d = Ok m → canonical_JobResponse m = true.
Proof.
  intros H. unfold canonical_JobResponse. apply andb_true_intro.
  split; [exact (from_dict_no_wire_keys CJobResponse d m H)|].
  rewrite JobResponse_from_dict_lookup in H. inv_ok. simpl.
  eapply forallb_parsed; [|by eapply from_dict_items_parsed].
  apply canonical_from_JobStatus.
Qed.

Lemma canonical_from_dict c d (m : model c) :
  from_dict c d = Ok m → canonical c m = true.
Proof.
  destruct c; simpl.
  - apply (from_dict_no_wire_keys CJobRequest).
  - apply canonical_from_JobResponse.
  - apply canonical_from_JobStatus.
  - apply canonical_from_ProgressEvent.
  - apply (from_dict_no_wire_keys CDomainTrack).
  - apply canonical_from_DomainTracklist.
  - apply (from_dict_no_wire_keys CProgressTrackDetails).
Qed.

(** X10.  An object of any model class comes back unchanged from
    [from_dict (to_dict m)] exactly when it is canonical: no wire key of the
    class is among its additional properties, every list-of-models field
    holds a list (an unset one comes back as the empty list), and the same
    holds for the models nested in it. *)
Theorem X10_object_round_trip (c : model_class) (m : model c) :
  from_dict c (to_dict c m) = Ok m ↔ canonical c m = true.
Proof. split; [apply canonical_from_dict|apply reparse]. Qed.

Lemma X10_object_round_trip_witness :
  from_dict CJobResponse (to_dict CJobResponse sample_response) = Ok sample_response ∧
  canonical CJobRequest request_with_stray_key = false.
Proof.
  split; [|by vm_compute].
  apply (X10_object_round_trip CJobResponse sample_response). by vm_compute.
Defined.

(** X11.  Parsing is stable: the object returned by [from_dict] on any
    mapping is canonical, so serializing it and parsing again returns the
    same object, and its serialization round trips exactly even when the
    original mapping did not. *)
Theorem X11_reparse_stable (c : model_class) (d : dict) (m : model c) :
  from_dict c d = Ok m →
  canonical c m = true ∧
  from_dict c (to_dict c m) = Ok m ∧
  round_trips c (to_dict c m).
Proof.
  intros H. pose proof (canonical_from_dict c d m H) as Hc.
  pose proof (reparse c m Hc) as Hr.
  split; [done|]. split; [done|]. by exists m.
Qed.

Lemma X11_reparse_stable_witness :
  round_trips CJobResponse {[ "jobs" := VList [] ]}.
Proof.
  assert (from_dict CJobResponse ∅ =
          Ok (JobResponse.mk (Given []) UNSET UNSET UNSET UNSET ∅)) as Hfrom
    by reflexivity.
  destruct (X11_reparse_stable CJobResponse ∅ _ Hfrom) as (_ & _ & H).
  exact H.
Defined.

(** * Beyond the claims: the submit call *)

(** X12.  The keyword arguments built for the submit call are a POST to
    "/api/process" with a JSON content type, and their JSON payload always
    carries "tracklist" and "url"; for a request that [from_dict] read from a
    mapping [d], the payload is [d] itself, unknown keys included. *)
Theorem X12_get_kwargs_payload (body : JobRequest.t) :
  dom (_get_kwargs body) = {[ "method"; "url"; "json"; "headers" ]} ∧
  _get_kwargs body !! "method" = Some (VStr "post") ∧
  _get_kwargs body !! "url" = Some (VStr "/api/process") ∧
  _get_kwargs body !! "headers" =
    Some (VDict {[ "Content-Type" := VStr "application/json" ]}) ∧
  (∃ payload, _get_kwargs body !! "json" = Some (VDict payload) ∧
     payload !! "tracklist" = Some (JobRequest.tracklist body) ∧
     payload !! "url" = Some (JobRequest.url body) ∧
     ∀ d, JobRequest.from_dict d = Ok body → payload = d).
Proof.
  unfold _get_kwargs. cbv zeta. split.
  { rewrite !dom_insert_L, dom_empty_L. apply set_eq. intros i. set_unfold. tauto. }
  repeat (split; [done|]).
  exists (JobRequest.to_dict body). split; [done|].
  change (JobRequest.to_dict body) with (to_dict CJobRequest body).
  split; [by rewrite lookup_to_dict|]. split; [by rewrite lookup_to_dict|].
  intros d Hd.
  destruct (faithful_round_trips CJobRequest d) as (m & Hm & Hto).
  { apply faithful_JobRequest_keys.
    - rewrite JobRequest_from_dict_lookup in Hd. by destruct (d !! "tracklist").
    - rewrite JobRequest_from_dict_lookup in Hd.
      by destruct (d !! "tracklist"), (d !! "url"). }
  simpl in Hm. rewrite Hd in Hm. by injection Hm as ->.
Qed.

Lemma X12_get_kwargs_payload_witness :
  ∃ payload,
    _get_kwargs (JobRequest.mk (VStr "1. A - X 00:00") (VStr "https://example.com/set.mp3")
                   UNSET (Given (VInt 4)) ∅) !! "json" = Some (VDict payload) ∧
    payload = sample_request_wire.
Proof.
  destruct (X12_get_kwargs_payload
              (JobRequest.mk (VStr "1. A - X 00:00") (VStr "https://example.com/set.mp3")
                 UNSET (Given (VInt 4)) ∅)) as (_ & _ & _ & _ & payload & Hp & _ & _ & Hd).
  exists payload. split; [exact Hp|]. by apply Hd.
Defined.

Lemma parse_response_cases {ServerMessageResponse ServerErrorResponse : Type}
    (message_from_dict : value → result ServerMessageResponse)
    (error_from_dict : value → result ServerErrorResponse)
    (client : Client) (r : Response) :
  (status_code r = 202%Z ∧
   _parse_response message_from_dict error_from_dict client r =
     (body ← json r; m ← message_from_dict body; Ok (Some (ParsedMessage m)))) ∨
  (status_code r = 400%Z ∧
   _parse_response message_from_dict error_from_dict client r =
     (body ← json r; e ← error_from_dict body; Ok (Some (ParsedError e)))) ∨
  (status_code r ≠ 202%Z ∧ status_code r ≠ 400%Z ∧
   _parse_response message_from_dict error_from_dict client r =
     if raise_on_unexpected_status client
     then Raise (UnexpectedStatus (status_code r) (content r))
     else Ok None).
Proof.
  unfold _parse_response.
  destruct (Z.eqb_spec (status_code r) 202) as [E202|N202]; [by left|].
  destruct (Z.eqb_spec (status_code r) 400) as [E400|N400]; [by right; left|].
  by right; right.
Qed.

Section PostApiProcessOutcomes.
Context {ServerMessageResponse ServerErrorResponse HTTPStatus Headers : Type}.
Variable ServerMessageResponse_from_dict : value → result ServerMessageResponse.
Variable ServerErrorResponse_from_dict : value → result ServerErrorResponse.
Variable HTTPStatus_call : Z → result HTTPStatus.
Variable headers : Response → Headers.
Variable request : Client → dict → result Response.

(** X13.  The submit call hands the keyword arguments of [_get_kwargs] to
    the transport and lets its exception through.  On a response,
    [HTTPStatus(response.status_code)] is evaluated before the body is
    parsed: when it raises, [sync] and [sync_detailed] raise that exception,
    whatever the status code and also with [raise_on_unexpected_status]
    false; when it returns, [sync] is the outcome of [_parse_response], and
    the detailed response carries the status, content and headers of the
    response.  So [sync] returns [None] exactly when the status is known to
    [HTTPStatus], is neither 202 nor 400, and [raise_on_unexpected_status]
    is false. *)
Theorem X13_sync_outcomes (client : Client) (body : JobRequest.t) :
  let parse :=
    _parse_response ServerMessageResponse_from_dict ServerErrorResponse_from_dict in
  let call_detailed :=
    sync_detailed ServerMessageResponse_from_dict ServerErrorResponse_from_dict
      HTTPStatus_call headers request in
  let call :=
    sync ServerMessageResponse_from_dict ServerErrorResponse_from_dict
      HTTPStatus_call headers request in
  (∀ e, request client (_get_kwargs body) = Raise e →
        call client body = Raise e ∧ call_detailed client body = Raise e) ∧
  (∀ r, request client (_get_kwargs body) = Ok r →
     (∀ e, HTTPStatus_call (status_code r) = Raise e →
           call client body = Raise e ∧ call_detailed client body = Raise e) ∧
     (∀ s, HTTPStatus_call (status_code r) = Ok s →
           call client body = parse client r ∧
           call_detailed client body =
             (p ← parse client r; Ok (mkDetailedResponse s (content r) (headers r) p))) ∧
     (call client body = Ok None ↔
        is_Ok (HTTPStatus_call (status_code r)) = true ∧
        status_code r ≠ 202%Z ∧ status_code r ≠ 400%Z ∧
        raise_on_unexpected_status client = false)).
Proof.
  cbv zeta. unfold sync, sync_detailed, _build_response. cbv zeta. split.
  { intros e ->. done. }
  intros r ->. simpl. split; [|split].
  - intros e ->. done.
  - intros s ->. simpl. split; [|done..].
    by destruct (_parse_response _ _ client r).
  - destruct (HTTPStatus_call (status_code r)) as [s|e|]; simpl.
    2, 3: by split; [|intros [? _]].
    destruct (parse_response_cases ServerMessageResponse_from_dict
                ServerErrorResponse_from_dict client r) as [H|[H|H]].
    + destruct H as [Hc ->]. split.
      * intros H. exfalso. by inv_ok.
      * intros (_ & Hn & _). done.
    + destruct H as [Hc ->]. split.
      * intros H. exfalso. by inv_ok.
      * intros (_ & _ & Hn & _). done.
    + destruct H as (H2 & H4 & ->).
      destruct (raise_on_unexpected_status client); simpl; split; try done.
      by intros (_ & _ & _ & ?).
Qed.
End PostApiProcessOutcomes.

Lemma X13_sync_outcomes_witness :
  sync message_of error_of sample_HTTPStatus (λ _, tt)
    (transport_answering odd_status_response) (mkClient false) sample_request =
    Raise ValueError ∧
  sync message_of error_of sample_HTTPStatus (λ _, tt)
    (transport_answering teapot_response) (mkClient false) sample_request = Ok None.
Proof.
  split.
  - destruct (X13_sync_outcomes message_of error_of sample_HTTPStatus (λ _, tt)
                (transport_answering odd_status_response) (mkClient false) sample_request)
      as [_ H].
    destruct (H odd_status_response eq_refl) as (Hraise & _).
    by apply (Hraise ValueError).
  - destruct (X13_sync_outcomes message_of error_of sample_HTTPStatus (λ _, tt)
                (transport_answering teapot_response) (mkClient false) sample_request)
      as [_ H].
    destruct (H teapot_response eq_refl) as (_ & _ & Hnone).
    apply Hnone. repeat split; done.
Defined.

(** * Beyond the claims: the mappings that round trip *)

Lemma structured_faithful_ProgressEvent (d : dict) :
  structured_ProgressEvent d = true → faithful CProgressEvent d.
Proof.
  intros H. apply andb_prop in H as [Hstage Htd].
  apply faithful_ProgressEvent_structure; [exact Hstage|].
  revert Htd. unfold key_typed. by destruct (d !! "trackDetails") as [[]|].
Qed.

Lemma structured_faithful_DomainTracklist (d : dict) :
  structured_DomainTracklist d = true → faithful CDomainTracklist d.
Proof.
  unfold structured_DomainTracklist, key_typed, faithful. simpl.
  rewrite DomainTracklist_from_dict_lookup.
  destruct (d !! "tracks") as [v|]; [|done..]. intros Hv. cbn [field_of_option].
  destruct (from_dict_items_round_trip DomainTrack.from_dict DomainTrack.to_dict
              any_mapping) with (v := v) as (xs & -> & Hxs); [|done|].
  { intros d' _. apply (faithful_round_trips CDomainTrack), faithful_DomainTrack. }
  simpl. eexists. split; [done|]. split; [done|]. simpl. by rewrite Hxs.
Qed.

Lemma structured_faithful_JobStatus (d : dict) :
  structured_JobStatus d = true → faithful CJobStatus d.
Proof.
  intros H. apply andb_prop in H as [Hes Htl]. unfold faithful. simpl.
  rewrite JobStatus_from_dict_lookup.
  revert Hes. unfold key_typed at 1. destruct (d !! "events") as [v|]; [|done..].
  intros Hv. cbn [field_of_option].
  destruct (from_dict_items_round_trip ProgressEvent.from_dict ProgressEvent.to_dict
              structured_ProgressEvent) with (v := v) as (xs & -> & Hxs); [|done|].
  { intros d' Hd'.
    by apply (faithful_round_trips CProgressEvent), structured_faithful_ProgressEvent. }
  destruct (from_dict_nested_round_trip DomainTracklist.from_dict
              DomainTracklist.to_dict structured_DomainTracklist)
    with (o := d !! "tracklist") as (tl & -> & Htl').
  { intros d' Hd'.
    by apply (faithful_round_trips CDomainTracklist), structured_faithful_DomainTracklist. }
  { exact Htl. }
  simpl. eexists. split; [done|]. split; [done|]. simpl. by rewrite Hxs, Htl'.
Qed.

Lemma structured_faithful_JobResponse (d : dict) :
  structured_JobResponse d = true → faithful CJobResponse d.
Proof.
  unfold structured_JobResponse, key_typed, faithful. simpl.
  rewrite JobResponse_from_dict_lookup.
  destruct (d !! "jobs") as [v|]; [|done..]. intros Hv. cbn [field_of_option].
  destruct (from_dict_items_round_trip JobStatus.from_dict JobStatus.to_dict
              structured_JobStatus) with (v := v) as (xs & -> & Hxs); [|done|].
  { intros d' Hd'.
    by apply (faithful_round_trips CJobStatus), structured_faithful_JobStatus. }
  simpl. eexists. split; [done|]. split; [done|]. simpl. by rewrite Hxs.
Qed.

Lemma structured_faithful c (d : dict) : structured c d = true → faithful c d.
Proof.
  destruct c; simpl; intros H.
  - apply andb_prop in H as [Ht Hu]. unfold key_typed in *.
    apply faithful_JobRequest_keys.
    + by destruct (d !! "tracklist").
    + by destruct (d !! "url").
  - by apply structured_faithful_JobResponse.
  - by apply structured_faithful_JobStatus.
  - by apply structured_faithful_ProgressEvent.
  - apply faithful_DomainTrack.
  - by apply structured_faithful_DomainTracklist.
  - apply faithful_ProgressTrackDetails.
Qed.

Lemma is_list_of_items_to_value {A} (to : A → dict) (p : dict → bool) (q : A → bool)
    (xs : list A) :
  (∀ x, q x = true → p (to x) = true) → forallb q xs = true →
  is_list_of (is_mapping p) (items_to_value to xs) = true.
Proof.
  intros Hp H. simpl. apply forallb_forall. intros v Hin.
  apply list_elem_of_In, list_elem_of_fmap in Hin as (x & -> & Hx). simpl.
  apply Hp. rewrite forallb_forall in H. by apply H, list_elem_of_In.
Qed.

(** Looking up a wire key in the serialization of a canonical object. *)
Ltac wire_key c m Hc :=
  rewrite (lookup_to_dict_wire c m)
    by first [exact Hc | apply (bool_decide_unpack _); by vm_compute];
  simpl.

Lemma structured_to_dict_ProgressEvent m :
  canonical_ProgressEvent m = true →
  structured_ProgressEvent (ProgressEvent.to_dict m) = true.
Proof.
  intros H. apply andb_prop in H as [Hc Htd].
  change (ProgressEvent.to_dict m) with (to_dict CProgressEvent m).
  unfold structured_ProgressEvent, key_typed.
  wire_key CProgressEvent m Hc. wire_key CProgressEvent m Hc.
  destruct (ProgressEvent.stage m) as [|st], (ProgressEvent.track_details m) as [|td];
    simpl; unfold is_stage; by rewrite ?ProgressStage_call_value.
Qed.

Lemma structured_to_dict_DomainTracklist m :
  canonical_DomainTracklist m = true →
  structured_DomainTracklist (DomainTracklist.to_dict m) = true.
Proof.
  intros H. apply andb_prop in H as [Hc Hts].
  change (DomainTracklist.to_dict m) with (to_dict CDomainTracklist m).
  unfold structured_DomainTracklist, key_typed.
  wire_key CDomainTracklist m Hc.
  destruct (DomainTracklist.tracks m) as [|ts]; [done|]. cbn [field_map field_to_option].
  by eapply is_list_of_items_to_value.
Qed.

Lemma structured_to_dict_JobStatus m :
  canonical_JobStatus m = true → structured_JobStatus (JobStatus.to_dict m) = true.
Proof.
  intros H. apply andb_prop in H as [H Htl]. apply andb_prop in H as [Hc Hes].
  change (JobStatus.to_dict m) with (to_dict CJobStatus m).
  unfold structured_JobStatus, key_typed.
  wire_key CJobStatus m Hc. wire_key CJobStatus m Hc.
  destruct (JobStatus.events m) as [|es]; [done|]. cbn [field_map field_to_option].
  apply andb_true_intro. split.
  - eapply is_list_of_items_to_value; [apply structured_to_dict_ProgressEvent|done..].
  - destruct (JobStatus.tracklist m) as [|tl]; [done|]. simpl in *.
    by apply structured_to_dict_DomainTracklist.
Qed.

Lemma structured_to_dict_JobResponse m :
  canonical_JobResponse m = true → structured_JobResponse (JobResponse.to_dict m) = true.
Proof.
  intros H. apply andb_prop in H as [Hc Hjs].
  change (JobResponse.to_dict m) with (to_dict CJobResponse m).
  unfold structured_JobResponse, key_typed.
  wire_key CJobResponse m Hc.
  destruct (JobResponse.jobs m) as [|js]; [done|]. cbn [field_map field_to_option].
  eapply is_list_of_items_to_value; [apply structured_to_dict_JobStatus|done..].
Qed.

Lemma structured_to_dict c (m : model c) :
  canonical c m = true → structured c (to_dict c m) = true.
Proof.
  destruct c; simpl; try done.
  - intros Hc. change (JobRequest.to_dict m) with (to_dict CJobRequest m).
    unfold structured_JobRequest, key_typed.
    wire_key CJobRequest m Hc. by wire_key CJobRequest m Hc.
  - apply structured_to_dict_JobResponse.
  - apply structured_to_dict_JobStatus.
  - apply structured_to_dict_ProgressEvent.
  - apply structured_to_dict_DomainTracklist.
Qed.

(** X6.  For every model class, a mapping round trips,
    [to_dict (from_dict d) = d], exactly when it has the structure
    [from_dict] relies on: the stage, if any, names a member, a nested
    model, if any, is a mapping, every list-of-models key is present and
    holds a list of mappings, a JobRequest has "tracklist" and "url", at
    every level of nesting.  Plain values of any type and unknown keys at
    any depth come back unchanged; DomainTrack and ProgressTrackDetails
    round trip every mapping. *)
Theorem X6_round_trip_iff_structured (c : model_class) (d : dict) :
  round_trips c d ↔ structured c d = true.
Proof.
  split.
  - intros (m & Hfrom & <-). apply structured_to_dict.
    by apply (canonical_from_dict c (to_dict c m)), reparse, (canonical_from_dict c _ m Hfrom).
  - intros H. by apply faithful_round_trips, structured_faithful.
Qed.

Lemma X6_round_trip_iff_structured_witness :
  round_trips CJobRequest ill_typed_request_wire ∧
  structured CJobResponse ∅ = false.
Proof.
  split; [|reflexivity].
  apply (X6_round_trip_iff_structured CJobRequest ill_typed_request_wire). by vm_compute.
Defined.
